(** * dmg_background.py: PNG encoder, compositor and rasterizer

    A shallow embedding of [src/dmg_background.py].

    - Python integers are [Z]; Python floats are IEEE 754 binary64
      values, [spec_float] with precision 53 and maximal exponent 1024,
      computed with the operations of [SpecFloat]; a number that may be
      either is a [Py.num].
    - The [bytearray] canvas is a [list byte] threaded through a monad
      of state and exceptions; an exception leaves the buffer as the
      statements executed before it have made it.
    - [zlib.crc32] is the CRC-32 of ISO 3309, written out; [zlib.compress]
      is a parameter of the encoder.
    - [math.sqrt] and the float operators are correctly rounded; [x ** 2]
      on a float, which CPython hands to the C library, is taken as the
      correctly rounded square. *)

From Stdlib Require Import ZArith List Bool Lia.
From Stdlib Require Import QArith Qminmax.
From Stdlib Require Import Floats.SpecFloat.
From Stdlib Require Import Strings.Byte.
From stdpp Require Import base list.

Open Scope Z_scope.

(** ** Exceptions and results *)

Inductive exn :=
| ValueError
| OverflowError
| ZeroDivisionError
| IndexError
| StructError.

Inductive res (A : Type) :=
| Ok (a : A)
| Raise (e : exn).
Arguments Ok {A} a.
Arguments Raise {A} e.

Definition res_bind {A B} (r : res A) (k : A -> res B) : res B :=
  match r with
  | Ok a => k a
  | Raise e => Raise e
  end.

Declare Scope res_scope.
Delimit Scope res_scope with res.
Notation "'let?' x ':=' r 'in' k" := (res_bind r (fun x => k))
  (at level 10, x pattern, r at level 100, k at level 200) : res_scope.

(** ** Python numbers: [int] and [float] *)

Module Py.

Definition prec : Z := 53.
Definition emax : Z := 1024.

Definition f64 := spec_float.

Definition fadd : f64 -> f64 -> f64 := SFadd prec emax.
Definition fsub : f64 -> f64 -> f64 := SFsub prec emax.
Definition fmul : f64 -> f64 -> f64 := SFmul prec emax.
Definition fdiv : f64 -> f64 -> f64 := SFdiv prec emax.
Definition fsqrt : f64 -> f64 := SFsqrt prec emax.

Definition is_zero (f : f64) : bool :=
  match f with S754_zero _ => true | _ => false end.

Definition is_finite (f : f64) : bool :=
  match f with S754_zero _ | S754_finite _ _ _ => true | _ => false end.

Definition is_inf (f : f64) : bool :=
  match f with S754_infinity _ => true | _ => false end.

(** [float(z)]: round to nearest even; [OverflowError] when the integer
    is too large for a double. *)
Definition float_of_int (z : Z) : res f64 :=
  match binary_normalize prec emax z 0 false with
  | S754_infinity _ => Raise OverflowError
  | f => Ok f
  end.

(** [int(f)]: truncation toward zero; infinities and NaN raise. *)
Definition int_of_float (f : f64) : res Z :=
  match f with
  | S754_zero _ => Ok 0
  | S754_infinity _ => Raise OverflowError
  | S754_nan => Raise ValueError
  | S754_finite s m e => Ok (cond_Zopp s (Z.shiftl (Zpos m) e))
  end.

(** [int / int]: the correctly rounded quotient of the two integers. *)
Definition int_truediv (a b : Z) : res f64 :=
  if b =? 0 then Raise ZeroDivisionError
  else if a =? 0 then Ok (S754_zero (b <? 0))
  else
    let '(mz, ez, lz) := SFdiv_core_binary prec emax (Z.abs a) 0 (Z.abs b) 0 in
    match binary_round_aux prec emax (xorb (a <? 0) (b <? 0)) mz ez lz with
    | S754_infinity _ => Raise OverflowError
    | f => Ok f
    end.

(** Exact comparison of a float with an integer, the way CPython
    compares [float] with [int]. *)
Definition fcmp_int (f : f64) (z : Z) : option comparison :=
  match f with
  | S754_nan => None
  | S754_infinity s => Some (if s then Lt else Gt)
  | S754_zero _ => Some (0 ?= z)
  | S754_finite s m e =>
      let v := cond_Zopp s (Zpos m) in
      Some (if 0 <=? e then (v * 2 ^ e ?= z) else (v ?= z * 2 ^ (- e)))
  end.

Inductive num :=
| PInt (z : Z)
| PFloat (f : f64).

Definition to_float (x : num) : res f64 :=
  match x with
  | PInt z => float_of_int z
  | PFloat f => Ok f
  end.

Section Arith.
Local Open Scope res_scope.

Definition add (x y : num) : res num :=
  match x, y with
  | PInt a, PInt b => Ok (PInt (a + b))
  | _, _ => let? fx := to_float x in let? fy := to_float y in Ok (PFloat (fadd fx fy))
  end.

Definition sub (x y : num) : res num :=
  match x, y with
  | PInt a, PInt b => Ok (PInt (a - b))
  | _, _ => let? fx := to_float x in let? fy := to_float y in Ok (PFloat (fsub fx fy))
  end.

Definition mul (x y : num) : res num :=
  match x, y with
  | PInt a, PInt b => Ok (PInt (a * b))
  | _, _ => let? fx := to_float x in let? fy := to_float y in Ok (PFloat (fmul fx fy))
  end.

(** [x / y], true division. *)
Definition truediv (x y : num) : res num :=
  match x, y with
  | PInt a, PInt b => let? q := int_truediv a b in Ok (PFloat q)
  | _, _ =>
      let? fx := to_float x in
      let? fy := to_float y in
      if is_zero fy then Raise ZeroDivisionError else Ok (PFloat (fdiv fx fy))
  end.

Definition neg (x : num) : num :=
  match x with
  | PInt a => PInt (- a)
  | PFloat f => PFloat (SFopp f)
  end.

(** [x ** 2].  On floats CPython calls the C library's [pow(x, 2.0)];
    it is taken here as the correctly rounded square, with CPython's
    [OverflowError] when a finite base overflows. *)
Definition pow2 (x : num) : res num :=
  match x with
  | PInt a => Ok (PInt (a * a))
  | PFloat f =>
      let p := fmul f f in
      if is_finite f && is_inf p then Raise OverflowError else Ok (PFloat p)
  end.

(** [math.sqrt(x)]. *)
Definition sqrt (x : num) : res f64 :=
  let? f := to_float x in
  match f with
  | S754_finite true _ _ | S754_infinity true => Raise ValueError
  | _ => Ok (fsqrt f)
  end.

(** [int(x)]. *)
Definition int (x : num) : res Z :=
  match x with
  | PInt a => Ok a
  | PFloat f => int_of_float f
  end.

End Arith.

Definition compare (x y : num) : option comparison :=
  match x, y with
  | PInt a, PInt b => Some (a ?= b)
  | PFloat f, PFloat g => SFcompare f g
  | PFloat f, PInt b => fcmp_int f b
  | PInt a, PFloat g => option_map CompOpp (fcmp_int g a)
  end.

Definition eqb (x y : num) : bool :=
  match compare x y with Some Eq => true | _ => false end.
Definition ltb (x y : num) : bool :=
  match compare x y with Some Lt => true | _ => false end.
Definition gtb (x y : num) : bool :=
  match compare x y with Some Gt => true | _ => false end.

(** [min(a, b)] keeps [a] unless [b < a]; [max(a, b)] keeps [a] unless
    [b > a]. *)
Definition min (a b : num) : num := if ltb b a then b else a.
Definition max (a b : num) : num := if gtb b a then b else a.

(** The float literals of the source. *)
Definition f255 : f64 := Eval vm_compute in binary_normalize prec emax 255 0 false.
Definition f0_6 : f64 := S754_finite false 5404319552844595 (-53).

End Py.

(** ** The canvas: a [bytearray] behind a state-and-exception monad

    A raised exception leaves the buffer as the statements executed so
    far have made it. *)

Abbreviation bytearray := (list byte).

Definition Z_of_byte (b : byte) : Z := Z.of_N (Byte.to_N b).

(** The byte with value [z mod 256]. *)
Definition byte_of (z : Z) : byte :=
  match Byte.of_N (Z.to_N (z mod 256)) with
  | Some b => b
  | None => x00
  end.

Definition M (A : Type) : Type := bytearray -> res A * bytearray.

Definition ret {A} (a : A) : M A := fun s => (Ok a, s).

Definition bind {A B} (m : M A) (k : A -> M B) : M B :=
  fun s =>
    match m s with
    | (Ok a, s') => k a s'
    | (Raise e, s') => (Raise e, s')
    end.

Definition lift {A} (r : res A) : M A := fun s => (r, s).

Declare Scope canvas_scope.
Delimit Scope canvas_scope with canvas.
Notation "x <- m ;; k" := (bind m (fun x => k))
  (at level 20, m at level 99, k at level 200) : canvas_scope.
Notation "m ;; k" := (bind m (fun _ => k))
  (at level 100, k at level 200, right associativity) : canvas_scope.

(** Python indexing: a negative index counts from the end. *)
Definition py_index (i len : Z) : option nat :=
  let j := if i <? 0 then i + len else i in
  if (0 <=? j) && (j <? len) then Some (Z.to_nat j) else None.

(** [pixels[i]] *)
Definition getitem (i : Z) : M Z :=
  fun s =>
    match py_index i (Z.of_nat (length s)) with
    | Some n =>
        match s !! n with
        | Some b => (Ok (Z_of_byte b), s)
        | None => (Raise IndexError, s)
        end
    | None => (Raise IndexError, s)
    end.

(** [pixels[i] = v]: the value has to be in [range(0, 256)]; CPython
    checks the value before the index. *)
Definition setitem (i v : Z) : M unit :=
  fun s =>
    if (0 <=? v) && (v <? 256) then
      match py_index i (Z.of_nat (length s)) with
      | Some n => (Ok tt, <[n := byte_of v]> s)
      | None => (Raise IndexError, s)
      end
    else (Raise ValueError, s).

(** [for i in range(lo, hi): body i] *)
Fixpoint for_range_from (n : nat) (i : Z) (body : Z -> M unit) : M unit :=
  match n with
  | O => ret tt
  | S n' => bind (body i) (fun _ => for_range_from n' (i + 1) body)
  end.

Definition for_range (lo hi : Z) (body : Z -> M unit) : M unit :=
  for_range_from (Z.to_nat (hi - lo)) lo body.

(** ** Compositor: [set_pixel] (lines 42-57) *)

Section Compositor.
Local Open Scope res_scope.
Local Open Scope canvas_scope.

(** [int(t1 + p * (1 - fa))], where [t1] is the product [c * fa]
    already computed and [p] the stored channel just read. *)
Definition blend_sum (t1 fa : Py.num) (p : Z) : res Z :=
  let? omfa := Py.sub (Py.PInt 1) fa in
  let? t2 := Py.mul (Py.PInt p) omfa in
  let? s := Py.add t1 t2 in
  Py.int s.

(** [int(c * fa + p * (1 - fa))] for a source channel [c] and the stored
    channel [p]. *)
Definition blend_channel (c : Z) (fa : Py.num) (p : Z) : res Z :=
  let? t1 := Py.mul (Py.PInt c) fa in
  blend_sum t1 fa p.

(** [pixels[i] = min(255, int(c * fa + pixels[i] * (1 - fa)))], in
    Python's order of evaluation: the product [c * fa], the read of
    [pixels[i]], the rest of the sum, the store. *)
Definition blend_store (i c : Z) (fa : Py.num) : M unit :=
  t1 <- lift (Py.mul (Py.PInt c) fa) ;;
  p <- getitem i ;;
  v <- lift (blend_sum t1 fa p) ;;
  setitem i (Z.min 255 v).

Definition in_canvas (width height x y : Z) : bool :=
  (0 <=? x) && (x <? width) && (0 <=? y) && (y <? height).

Definition set_pixel (width height x y r g b a : Z) : M unit :=
  if in_canvas width height x y then
    let idx := (y * width + x) * 4 in
    old_a <- getitem (idx + 3) ;;
    if old_a =? 0 then
      setitem idx r ;;
      setitem (idx + 1) g ;;
      setitem (idx + 2) b ;;
      setitem (idx + 3) a
    else
      fa <- lift (Py.truediv (Py.PInt a) (Py.PFloat Py.f255)) ;;
      blend_store idx r fa ;;
      blend_store (idx + 1) g fa ;;
      blend_store (idx + 2) b fa ;;
      setitem (idx + 3) (Z.min 255 (old_a + a))
  else ret tt.

End Compositor.

(** ** Rasterizer (lines 60-152) *)

Section Rasterizer.
Local Open Scope res_scope.
Local Open Scope canvas_scope.

(** Lines 82-94 of [draw_thick_line]: the alpha to paint pixel
    [(px, py)] with, [None] when the pixel is skipped. *)
Definition line_edge_alpha (x1 y1 dx dy : Py.num) (length : Py.f64)
    (thickness : Py.num) (a : Z) (px py : Z) : res (option Z) :=
  let? ux := Py.sub (Py.PInt px) x1 in
  let? uxd := Py.mul ux dx in
  let? uy := Py.sub (Py.PInt py) y1 in
  let? uyd := Py.mul uy dy in
  let? dot := Py.add uxd uyd in
  let? l2 := Py.mul (Py.PFloat length) (Py.PFloat length) in
  let? t := Py.truediv dot l2 in
  let t := Py.max (Py.PInt 0) (Py.min (Py.PInt 1) t) in
  let? tdx := Py.mul t dx in
  let? closest_x := Py.add x1 tdx in
  let? tdy := Py.mul t dy in
  let? closest_y := Py.add y1 tdy in
  let? ex := Py.sub (Py.PInt px) closest_x in
  let? ex2 := Py.pow2 ex in
  let? ey := Py.sub (Py.PInt py) closest_y in
  let? ey2 := Py.pow2 ey in
  let? d2 := Py.add ex2 ey2 in
  let? dist := Py.sqrt d2 in
  let? half := Py.truediv thickness (Py.PInt 2) in
  if Py.ltb (Py.PFloat dist) half then
    let? half' := Py.truediv thickness (Py.PInt 2) in
    let? inner := Py.sub half' (Py.PInt 1) in
    let? edge_a :=
      if Py.gtb (Py.PFloat dist) inner then
        let? half'' := Py.truediv thickness (Py.PInt 2) in
        let? w := Py.sub half'' (Py.PFloat dist) in
        let? aw := Py.mul (Py.PInt a) w in
        Py.int aw
      else Ok a in
    if 0 <? edge_a then Ok (Some edge_a) else Ok None
  else Ok None.

Definition paint (width height px py r g b : Z) (edge : res (option Z)) : M unit :=
  e <- lift edge ;;
  match e with
  | Some edge_a => set_pixel width height px py r g b edge_a
  | None => ret tt
  end.

(** Lines 62-77 of [draw_thick_line]: the direction, the length and the
    padded bounding box; [None] for the zero-length line. *)
Record line_box := LineBox {
  box_dx : Py.num; box_dy : Py.num; box_length : Py.f64;
  box_min_x : Z; box_max_x : Z; box_min_y : Z; box_max_y : Z }.

Definition line_setup (width height : Z) (x1 y1 x2 y2 thickness : Py.num)
    : res (option line_box) :=
  let? dx := Py.sub x2 x1 in
  let? dy := Py.sub y2 y1 in
  let? dx2 := Py.mul dx dx in
  let? dy2 := Py.mul dy dy in
  let? s := Py.add dx2 dy2 in
  let? length := Py.sqrt s in
  if Py.eqb (Py.PFloat length) (Py.PInt 0) then Ok None
  else
    let? _nx := Py.truediv (Py.neg dy) (Py.PFloat length) in
    let? _ny := Py.truediv dx (Py.PFloat length) in
    let? h := Py.truediv thickness (Py.PInt 2) in
    let? half_t := Py.add h (Py.PInt 1) in
    let? v1 := Py.sub (Py.min x1 x2) half_t in
    let? i1 := Py.int v1 in
    let min_x := Z.max 0 i1 in
    let? v2 := Py.add (Py.max x1 x2) half_t in
    let? i2 := Py.int v2 in
    let max_x := Z.min (width - 1) i2 in
    let? v3 := Py.sub (Py.min y1 y2) half_t in
    let? i3 := Py.int v3 in
    let min_y := Z.max 0 i3 in
    let? v4 := Py.add (Py.max y1 y2) half_t in
    let? i4 := Py.int v4 in
    let max_y := Z.min (height - 1) i4 in
    Ok (Some (LineBox dx dy length min_x max_x min_y max_y)).

Definition draw_thick_line (width height : Z) (x1 y1 x2 y2 thickness : Py.num)
    (r g b a : Z) : M unit :=
  setup <- lift (line_setup width height x1 y1 x2 y2 thickness) ;;
  match setup with
  | None => ret tt
  | Some bx =>
      for_range (box_min_y bx) (box_max_y bx + 1) (fun py =>
        for_range (box_min_x bx) (box_max_x bx + 1) (fun px =>
          paint width height px py r g b
            (line_edge_alpha x1 y1 (box_dx bx) (box_dy bx) (box_length bx)
               thickness a px py)))
  end.

(** Lines 102-108 of [draw_filled_circle]. *)
Definition circle_distance (cx cy : Py.num) (px py : Z) : res Py.f64 :=
  let? ex := Py.sub (Py.PInt px) cx in
  let? ex2 := Py.pow2 ex in
  let? ey := Py.sub (Py.PInt py) cy in
  let? ey2 := Py.pow2 ey in
  let? d2 := Py.add ex2 ey2 in
  Py.sqrt d2.

Definition circle_band (radius : Py.num) (a : Z) (dist : Py.f64) : res (option Z) :=
  if Py.ltb (Py.PFloat dist) radius then
    let? inner := Py.sub radius (Py.PInt 1) in
    let? edge_a :=
      if Py.gtb (Py.PFloat dist) inner then
        let? w := Py.sub radius (Py.PFloat dist) in
        let? aw := Py.mul (Py.PInt a) w in
        Py.int aw
      else Ok a in
    if 0 <? edge_a then Ok (Some edge_a) else Ok None
  else Ok None.

Definition circle_edge_alpha (cx cy radius : Py.num) (a : Z) (px py : Z)
    : res (option Z) :=
  let? dist := circle_distance cx cy px py in
  circle_band radius a dist.

Definition draw_filled_circle (width height : Z) (cx cy radius : Py.num)
    (r g b a : Z) : M unit :=
  y_lo <- lift (let? v := Py.sub cy radius in
                let? v' := Py.sub v (Py.PInt 1) in
                let? i := Py.int v' in Ok (Z.max 0 i)) ;;
  y_hi <- lift (let? v := Py.add cy radius in
                let? v' := Py.add v (Py.PInt 2) in
                let? i := Py.int v' in Ok (Z.min height i)) ;;
  for_range y_lo y_hi (fun py =>
    x_lo <- lift (let? v := Py.sub cx radius in
                  let? v' := Py.sub v (Py.PInt 1) in
                  let? i := Py.int v' in Ok (Z.max 0 i)) ;;
    x_hi <- lift (let? v := Py.add cx radius in
                  let? v' := Py.add v (Py.PInt 2) in
                  let? i := Py.int v' in Ok (Z.min width i)) ;;
    for_range x_lo x_hi (fun px =>
      paint width height px py r g b
        (circle_edge_alpha cx cy radius a px py))).

Definition draw_chevron (width height : Z) (cx cy half_h thickness : Py.num)
    (r g b a : Z) : M unit :=
  indent <- lift (Py.mul half_h (Py.PFloat Py.f0_6)) ;;
  top_x <- lift (Py.sub cx indent) ;;
  top_y <- lift (Py.sub cy half_h) ;;
  mid_x <- lift (Py.add cx indent) ;;
  let mid_y := cy in
  bot_x <- lift (Py.sub cx indent) ;;
  bot_y <- lift (Py.add cy half_h) ;;
  draw_thick_line width height top_x top_y mid_x mid_y thickness r g b a ;;
  draw_thick_line width height mid_x mid_y bot_x bot_y thickness r g b a.

End Rasterizer.

(** ** Scene (lines 9-16, 132-176) *)

Definition WIDTH : Z := 660.
Definition HEIGHT : Z := 400.
Definition APP_ICON_X : Z := 160.
Definition APPS_ICON_X : Z := 500.
Definition ICON_Y : Z := 190.
Definition ICON_SIZE : Z := 100.

Section Scene.
Local Open Scope res_scope.
Local Open Scope canvas_scope.

Definition draw_arrow (width height : Z) : M unit :=
  let cx := (APP_ICON_X + APPS_ICON_X) / 2 in
  let cy := ICON_Y in
  let '(ar, ag, ab) := (200, 210, 230) in
  let aa := 200 in
  let chevron_half_h := 28 in
  let chevron_thickness := 8 in
  let spacing := 22 in
  draw_chevron width height
    (Py.PInt (cx - spacing / 2)) (Py.PInt cy) (Py.PInt chevron_half_h)
    (Py.PInt chevron_thickness) ar ag ab aa ;;
  draw_chevron width height
    (Py.PInt (cx + spacing / 2)) (Py.PInt cy) (Py.PInt chevron_half_h)
    (Py.PInt chevron_thickness) ar ag ab aa.

(** [int(base + t * 6)] of lines 167-169. *)
Definition gradient_channel (base : Z) (t : Py.num) : res Z :=
  let? t6 := Py.mul t (Py.PInt 6) in
  let? v := Py.add (Py.PInt base) t6 in
  Py.int v.

(** Lines 162-173: the background gradient. *)
Definition paint_gradient : M unit :=
  for_range 0 HEIGHT (fun y =>
    for_range 0 WIDTH (fun x =>
      let idx := (y * WIDTH + x) * 4 in
      t <- lift (Py.truediv (Py.PInt y) (Py.PInt HEIGHT)) ;;
      bg_r <- lift (gradient_channel 42 t) ;;
      bg_g <- lift (gradient_channel 42 t) ;;
      bg_b <- lift (gradient_channel 45 t) ;;
      setitem idx bg_r ;;
      setitem (idx + 1) bg_g ;;
      setitem (idx + 2) bg_b ;;
      setitem (idx + 3) 255)).

(** [bytearray(n)]: [n] zero bytes. *)
Definition bytearray_zeros (n : Z) : bytearray := replicate (Z.to_nat n) x00.

(** Lines 159-176 of [main]: the canvas handed to the encoder. *)
Definition main_scene : res unit * bytearray :=
  (paint_gradient ;; draw_arrow WIDTH HEIGHT) (bytearray_zeros (WIDTH * HEIGHT * 4)).

End Scene.

(** ** PNG encoder (lines 19-39) *)

(** [zlib.crc32]: the CRC-32 of ISO 3309 (reflected polynomial
    [0xEDB88320]), bit by bit. *)
Definition crc32_step (c : Z) : Z :=
  if Z.odd c then Z.lxor (Z.shiftr c 1) 0xEDB88320 else Z.shiftr c 1.

Definition crc32_byte (crc : Z) (b : byte) : Z :=
  Nat.iter 8 crc32_step (Z.lxor crc (Z_of_byte b)).

Definition crc32 (data : list byte) : Z :=
  Z.lxor (fold_left crc32_byte data 0xFFFFFFFF) 0xFFFFFFFF.

(** Four bytes, most significant first. *)
Definition be32 (v : Z) : list byte :=
  [byte_of (Z.shiftr v 24); byte_of (Z.shiftr v 16); byte_of (Z.shiftr v 8); byte_of v].

(** [struct.pack('>I', v)] and [struct.pack('>B', v)]: values that do
    not fit the field raise [struct.error]. *)
Definition pack_I (v : Z) : res (list byte) :=
  if (0 <=? v) && (v <? 2 ^ 32) then Ok (be32 v) else Raise StructError.

Definition pack_B (v : Z) : res (list byte) :=
  if (0 <=? v) && (v <? 256) then Ok [byte_of v] else Raise StructError.

(** [struct.pack('>IIBBBBB', ...)] *)
Definition pack_IIBBBBB (i1 i2 b1 b2 b3 b4 b5 : Z) : res (list byte) :=
  (let? p1 := pack_I i1 in
   let? p2 := pack_I i2 in
   let? p3 := pack_B b1 in
   let? p4 := pack_B b2 in
   let? p5 := pack_B b3 in
   let? p6 := pack_B b4 in
   let? p7 := pack_B b5 in
   Ok (p1 ++ p2 ++ p3 ++ p4 ++ p5 ++ p6 ++ p7))%res.

(** Python slicing [l[lo:hi]]: bounds are clipped, negative bounds count
    from the end. *)
Definition slice_bound (i len : Z) : Z :=
  if i <? 0 then Z.max 0 (i + len) else Z.min i len.

Definition slice (l : list byte) (lo hi : Z) : list byte :=
  let len := Z.of_nat (length l) in
  let lo' := slice_bound lo len in
  let hi' := slice_bound hi len in
  take (Z.to_nat (hi' - lo')) (drop (Z.to_nat lo') l).

(** [for i in range(lo, hi): s = f i s] *)
Fixpoint for_acc_from {S : Type} (n : nat) (i : Z) (f : Z -> S -> S) (s : S) : S :=
  match n with
  | O => s
  | S n' => for_acc_from n' (i + 1) f (f i s)
  end.

Definition for_acc {S : Type} (lo hi : Z) (f : Z -> S -> S) (s : S) : S :=
  for_acc_from (Z.to_nat (hi - lo)) lo f s.

Definition png_signature : list byte := [x89; x50; x4e; x47; x0d; x0a; x1a; x0a].
Definition IHDR : list byte := ["I"; "H"; "D"; "R"]%byte.
Definition IDAT : list byte := ["I"; "D"; "A"; "T"]%byte.
Definition IEND : list byte := ["I"; "E"; "N"; "D"]%byte.

(** Lines 21-24, the inner function [chunk]. *)
Definition chunk (chunk_type data : list byte) : res (list byte) :=
  (let c := chunk_type ++ data in
   let? crc := pack_I (Z.land (crc32 c) 0xffffffff) in
   let? len := pack_I (Z.of_nat (length data)) in
   Ok (len ++ c ++ crc))%res.

(** Lines 29-34: the scanlines, each behind its filter byte. *)
Definition raw_data (width height : Z) (pixels : bytearray) : list byte :=
  for_acc 0 height (fun y raw =>
    for_acc 0 width (fun x raw =>
      let idx := (y * width + x) * 4 in
      raw ++ slice pixels idx (idx + 4))
      (raw ++ [x00]))
    [].

Section Encoder.

(** [zlib.compress(data, 9)] of the C library zlib. *)
Variable compress : list byte -> list byte.

Definition create_png (width height : Z) (pixels : bytearray) : res (list byte) :=
  (let header := png_signature in
   let? ihdr_data := pack_IIBBBBB width height 8 6 0 0 0 in
   let? ihdr := chunk IHDR ihdr_data in
   let raw := raw_data width height pixels in
   let? idat := chunk IDAT (compress raw) in
   let? iend := chunk IEND [] in
   Ok (header ++ ihdr ++ idat ++ iend))%res.




End Encoder.

(** ** Reading the canvas *)

(** Integers [lo, lo+1, ..., hi-1], the values of [range(lo, hi)]. *)
Definition range_Z (lo hi : Z) : list Z :=
  map (fun i => lo + Z.of_nat i) (seq 0 (Z.to_nat (hi - lo))).

(** The stored value of byte [j] of the buffer. *)
Definition byte_at (s : bytearray) (j : Z) : option Z :=
  if 0 <=? j then Z_of_byte <$> s !! Z.to_nat j else None.

(** The four stored channels of pixel [(x, y)]. *)
Definition pixel_at (width : Z) (s : bytearray) (x y : Z) : option (Z * Z * Z * Z) :=
  let idx := (y * width + x) * 4 in
  match byte_at s idx, byte_at s (idx + 1), byte_at s (idx + 2), byte_at s (idx + 3) with
  | Some r, Some g, Some b, Some a => Some (r, g, b, a)
  | _, _, _, _ => None
  end.

(** A coordinate that is a number: an [int], or a [float] that is
    neither an infinity nor NaN. *)
Definition coord_finite (x : Py.num) : bool :=
  match x with
  | Py.PInt _ => true
  | Py.PFloat f => Py.is_finite f
  end.

(** ** Magnitude of the floats met while blending

    [below sx h f]: [f] is the zero of sign [sx], or a finite float of
    sign [sx] with at most 54 mantissa digits and exponent at most [h]. *)

Definition below (sx : bool) (h : Z) (f : Py.f64) : Prop :=
  f = S754_zero sx \/
  exists m e, f = S754_finite sx m e /\ Zpos (digits2_pos m) <= 54 /\ e <= h.

Definition fbelow (hi : Z) (f : Py.f64) : bool :=
  match f with
  | S754_zero s => negb s
  | S754_finite false m e => (Zpos (digits2_pos m) <=? 54) && (e <=? hi)
  | _ => false
  end.

(** The weights [fa = a / 255.0] and [1 - fa] of an alpha [a] are both
    non-negative floats below 2. *)
Definition alpha_ok (a : Z) : bool :=
  match Py.truediv (Py.PInt a) (Py.PFloat Py.f255) with
  | Ok (Py.PFloat fa) =>
      fbelow 0 fa &&
      match Py.sub (Py.PInt 1) (Py.PFloat fa) with
      | Ok (Py.PFloat om) => fbelow 0 om
      | _ => false
      end
  | _ => false
  end.

(** The buffer after [pixels[i] = v]. *)
Definition store (s : bytearray) (i v : Z) : bytearray :=
  <[Z.to_nat i := byte_of v]> s.

(** The buffer after the four stores of one pixel. *)
Definition store4 (s : bytearray) (i v0 v1 v2 v3 : Z) : bytearray :=
  store (store (store (store s i v0) (i + 1) v1) (i + 2) v2) (i + 3) v3.

(** A recorded [set_pixel] call and the execution of a sequence of
    calls, in order, up to the first exception. *)
Record call := Call {
  call_x : Z; call_y : Z; call_r : Z; call_g : Z; call_b : Z; call_a : Z }.

Fixpoint run_calls (width height : Z) (cs : list call) : M unit :=
  match cs with
  | [] => ret tt
  | c :: cs' =>
      bind (set_pixel width height (call_x c) (call_y c)
              (call_r c) (call_g c) (call_b c) (call_a c))
           (fun _ => run_calls width height cs')
  end.

(** [alpha_mono s s']: the buffers have the same length and no alpha
    byte of [s'] is below the one of [s]. *)
Definition alpha_mono (s s' : bytearray) : Prop :=
  length s' = length s /\
  forall j v, j mod 4 = 3 -> byte_at s j = Some v ->
    exists v', byte_at s' j = Some v' /\ v <= v'.

(** The blend as the specification words it: exact arithmetic on
    rationals, [fa = a/255], clamped to [0, 255]. *)
Definition over_blend (src dst a : Z) : Q :=
  let fa := (inject_Z a / inject_Z 255)%Q in
  Qmax 0 (Qmin 255 (inject_Z src * fa + inject_Z dst * (1 - fa)))%Q.

(** ** Checks run on the concrete scene *)

(** Row [y]: the float computation of lines 166-169 returns
    [42 + 6 * y // 400] for red and green and [45 + 6 * y // 400] for
    blue. *)
Definition gradient_row_ok (y : Z) : bool :=
  match Py.truediv (Py.PInt y) (Py.PInt HEIGHT) with
  | Ok t =>
      match gradient_channel 42 t, gradient_channel 45 t with
      | Ok r, Ok b => (r =? 42 + 6 * y / 400) && (b =? 45 + 6 * y / 400)
      | _, _ => false
      end
  | Raise _ => false
  end.

(** An edge alpha that [set_pixel] accepts. *)
Definition edge_ok (e : res (option Z)) : bool :=
  match e with
  | Ok None => true
  | Ok (Some ea) => (0 <=? ea) && (ea <? 256)
  | Raise _ => false
  end.

(** Every pixel of the bounding box of a line gets an edge alpha that
    [set_pixel] accepts. *)
Definition line_scan (width height : Z) (x1 y1 x2 y2 thickness : Py.num) (a : Z) : bool :=
  match line_setup width height x1 y1 x2 y2 thickness with
  | Ok None => true
  | Ok (Some bx) =>
      forallb (fun py =>
        forallb (fun px =>
          edge_ok (line_edge_alpha x1 y1 (box_dx bx) (box_dy bx) (box_length bx)
                     thickness a px py))
          (range_Z (box_min_x bx) (box_max_x bx + 1)))
        (range_Z (box_min_y bx) (box_max_y bx + 1))
  | Raise _ => false
  end.

Definition chevron_scan (width height : Z) (cx cy half_h thickness : Py.num) (a : Z) : bool :=
  match Py.mul half_h (Py.PFloat Py.f0_6) with
  | Ok indent =>
      match Py.sub cx indent, Py.sub cy half_h, Py.add cx indent, Py.add cy half_h with
      | Ok top_x, Ok top_y, Ok mid_x, Ok bot_y =>
          line_scan width height top_x top_y mid_x cy thickness a &&
          line_scan width height mid_x cy top_x bot_y thickness a
      | _, _, _, _ => false
      end
  | Raise _ => false
  end.

(** A canvas of the right size whose pixels are all opaque. *)
Definition opaque (width height : Z) (s : bytearray) : Prop :=
  Z.of_nat (length s) = width * height * 4 /\
  forall x y, in_canvas width height x y = true ->
    exists R G B, pixel_at width s x y = Some (R, G, B, 255).

(** The gradient has been painted on all pixels before pixel number [k]. *)
Definition painted_upto (k : Z) (s : bytearray) : Prop :=
  Z.of_nat (length s) = WIDTH * HEIGHT * 4 /\
  forall x y, 0 <= x < WIDTH -> 0 <= y -> y * WIDTH + x < k ->
    pixel_at WIDTH s x y =
      Some (42 + 6 * y / 400, 42 + 6 * y / 400, 45 + 6 * y / 400, 255).

(** ** The PNG layout as the specification words it *)

(** A chunk: big-endian payload length, type, payload, big-endian
    CRC-32 of type and payload. *)
Definition chunk_layout (chunk_type payload : list byte) : list byte :=
  be32 (Z.of_nat (length payload)) ++ chunk_type ++ payload ++
  be32 (crc32 (chunk_type ++ payload)).

(** Signature, [IHDR], one [IDAT], [IEND]. *)
Definition png_layout (width height : Z) (idat_payload : list byte) : list byte :=
  png_signature ++
  chunk_layout IHDR (be32 width ++ be32 height ++ [x08; x06; x00; x00; x00]) ++
  chunk_layout IDAT idat_payload ++
  chunk_layout IEND [].

(** Reading a PNG byte string back into its chunks [(type, payload)],
    checking every length and CRC. *)
Definition be32_decode (l : list byte) : Z :=
  fold_left (fun acc b => acc * 256 + Z_of_byte b) l 0.

Fixpoint read_chunks (fuel : nat) (data : list byte)
    : option (list (list byte * list byte)) :=
  match fuel with
  | O => None
  | S fuel' =>
      match data with
      | [] => Some []
      | _ =>
          let len := Z.to_nat (be32_decode (take 4 data)) in
          let ty := take 4 (drop 4 data) in
          let payload := take len (drop 8 data) in
          let crc := take 4 (drop (8 + len) data) in
          if (12 + len <=? length data)%nat &&
             (be32_decode crc =? crc32 (ty ++ payload))
          then option_map (cons (ty, payload)) (read_chunks fuel' (drop (12 + len) data))
          else None
      end
  end.

Definition byte_list_eqb (a b : list byte) : bool :=
  if List.list_eq_dec Byte.byte_eq_dec a b then true else false.

Definition png_chunks (png : list byte) : option (list (list byte * list byte)) :=
  if byte_list_eqb (take 8 png) png_signature
  then read_chunks (length png) (drop 8 png)
  else None.

(** Row [y] of the buffer, the scanlines behind their filter bytes, and
    the scanlines with the filter bytes removed. *)
Definition pixel_row (width : nat) (pixels : list byte) (y : nat) : list byte :=
  take (4 * width) (drop (4 * width * y) pixels).

Definition scanlines (width height : nat) (pixels : list byte) : list byte :=
  concat (map (fun y => x00 :: pixel_row width pixels y) (seq 0 height)).

Fixpoint unfilter (width height : nat) (data : list byte) : list byte :=
  match height with
  | O => []
  | S h => take (4 * width) (drop 1 data) ++ unfilter width h (drop (1 + 4 * width) data)
  end.

(** ** Distances on the half-integer grid *)


(** The float 0.5. *)
Definition f0_5 : Py.f64 := S754_finite false 4503599627370496 (-53).


(** * Properties *)

(** ** The monad and the loops *)

Lemma bind_ok {A B} (m : M A) (k : A -> M B) s a s' :
  m s = (Ok a, s') -> bind m k s = k a s'.
Proof. intros H. unfold bind. now rewrite H. Qed.

Lemma bind_raise {A B} (m : M A) (k : A -> M B) s e s' :
  m s = (Raise e, s') -> bind m k s = (Raise e, s').
Proof. intros H. unfold bind. now rewrite H. Qed.

Lemma bind_lift_ok {A B} (a : A) (k : A -> M B) s :
  bind (lift (Ok a)) k s = k a s.
Proof. reflexivity. Qed.

Lemma bind_lift_raise {A B} (e : exn) (k : A -> M B) s :
  bind (lift (Raise e)) k s = (Raise e, s).
Proof. reflexivity. Qed.

Lemma bind_lift_snd {A B} (r : res A) (k : A -> M B) s :
  (forall a, r = Ok a -> snd (k a s) = s) -> snd (bind (lift r) k s) = s.
Proof. intros H. destruct r as [a|e]; [now apply H | reflexivity]. Qed.

(** A loop whose body keeps an invariant and does not raise keeps the
    invariant and does not raise. *)
Lemma for_range_from_inv (P : bytearray -> Prop) body n : forall i s,
  (forall j s0, i <= j < i + Z.of_nat n -> P s0 ->
     exists s1, body j s0 = (Ok tt, s1) /\ P s1) ->
  P s ->
  exists s', for_range_from n i body s = (Ok tt, s') /\ P s'.
Proof.
  induction n as [|n IH]; intros i s Hbody HP.
  - exists s. split; [reflexivity | assumption].
  - destruct (Hbody i s) as (s1 & E1 & P1); [lia | assumption |].
    cbn [for_range_from]. rewrite (bind_ok _ _ _ _ _ E1).
    apply IH; [| assumption].
    intros j s0 Hj. apply Hbody. lia.
Qed.

Lemma for_range_inv (P : bytearray -> Prop) body lo hi s :
  (forall j s0, lo <= j < hi -> P s0 ->
     exists s1, body j s0 = (Ok tt, s1) /\ P s1) ->
  P s ->
  exists s', for_range lo hi body s = (Ok tt, s') /\ P s'.
Proof.
  intros Hbody HP. unfold for_range.
  apply for_range_from_inv; [| assumption].
  intros j s0 Hj. apply Hbody. lia.
Qed.




Lemma forallb_range_Z (P : Z -> bool) lo hi :
  forallb P (range_Z lo hi) = true -> forall i, lo <= i < hi -> P i = true.
Proof.
  intros H i Hi. rewrite forallb_forall in H. apply H.
  unfold range_Z. apply in_map_iff. exists (Z.to_nat (i - lo)).
  split; [lia |]. apply in_seq. lia.
Qed.

(** ** Clipping and degenerate geometry *)

Ltac inv_res H :=
  repeat (cbn beta zeta iota delta [res_bind] in H;
    match type of H with
    | res_bind ?r _ = _ =>
        let E := fresh "E" in
        destruct r eqn:E; cbn beta iota delta [res_bind] in H; [| discriminate H]
    | (if ?c then _ else _) = _ =>
        let E := fresh "E" in destruct c eqn:E
    | Raise _ = Ok _ => discriminate H
    | Ok _ = Raise _ => discriminate H
    | Ok None = Ok (Some _) => discriminate H
    end).

Lemma set_pixel_outside width height x y r g b a s :
  in_canvas width height x y = false ->
  set_pixel width height x y r g b a s = (Ok tt, s).
Proof. intros H. unfold set_pixel. now rewrite H. Qed.



Lemma sub_int_finite a b v i :
  Py.sub a b = Ok v -> Py.int v = Ok i -> coord_finite a = true.
Proof.
  destruct a as [za|fa]; [reflexivity |].
  intros Hs Hi.
  assert (exists fb, v = Py.PFloat (Py.fsub fa fb)) as [fb ->].
  { destruct b as [zb|fb]; cbn in Hs.
    - destruct (Py.float_of_int zb) as [fb|]; [| discriminate].
      injection Hs as <-. now exists fb.
    - injection Hs as <-. now exists fb. }
  destruct fa as [sa|sa| |sa ma ea]; try reflexivity;
    destruct fb as [sb|sb| |sb mb eb]; try destruct sa; try destruct sb;
    discriminate Hi.
Qed.

Lemma line_setup_finite width height x1 y1 x2 y2 thickness bx :
  line_setup width height x1 y1 x2 y2 thickness = Ok (Some bx) ->
  coord_finite (Py.min x1 x2) = true /\ coord_finite (Py.min y1 y2) = true.
Proof.
  intros H. unfold line_setup in H. inv_res H.
  split; eapply sub_int_finite; eassumption.
Qed.

Lemma min_self x : Py.min x x = x.
Proof. unfold Py.min. now destruct (Py.ltb x x). Qed.

Lemma sub_self x :
  coord_finite x = true ->
  Py.sub x x = Ok (Py.PInt 0) \/ Py.sub x x = Ok (Py.PFloat (S754_zero false)).
Proof.
  destruct x as [z|f]; intros H.
  - left. cbn. now rewrite Z.sub_diag.
  - right. destruct f as [[]|[]| |s m e]; try discriminate H; try reflexivity.
    cbn. unfold Py.fsub, SFsub. now rewrite Z.sub_diag.
Qed.

Lemma line_setup_degenerate width height x y thickness :
  coord_finite x = true -> coord_finite y = true ->
  line_setup width height x y x y thickness = Ok None.
Proof.
  intros Hx Hy. unfold line_setup.
  destruct (sub_self x Hx) as [-> | ->], (sub_self y Hy) as [-> | ->];
    reflexivity.
Qed.




(** C8: a thick line whose two end points coincide paints nothing: the
    buffer is left as it was whatever the coordinates are, and for
    coordinates that are numbers (integers or finite floats) the call
    returns normally. *)
Theorem zero_length_line_paints_nothing width height x y thickness r g b a s :
  snd (draw_thick_line width height x y x y thickness r g b a s) = s /\
  (coord_finite x = true -> coord_finite y = true ->
   draw_thick_line width height x y x y thickness r g b a s = (Ok tt, s)).
Proof.
  split.
  - unfold draw_thick_line. apply bind_lift_snd.
    intros [bx|] E; [| reflexivity]. exfalso.
    destruct (line_setup_finite _ _ _ _ _ _ _ _ E) as [Hx Hy].
    rewrite min_self in Hx, Hy.
    rewrite (line_setup_degenerate _ _ _ _ _ Hx Hy) in E. discriminate E.
  - intros Hx Hy. unfold draw_thick_line.
    now rewrite (line_setup_degenerate _ _ _ _ _ Hx Hy).
Qed.

Lemma zero_length_line_witness :
  draw_thick_line 660 400 (Py.PFloat Py.f0_6) (Py.PInt 162)
    (Py.PFloat Py.f0_6) (Py.PInt 162) (Py.PInt 8) 200 210 230 200
    [x2a; x2a; x2d; xff] = (Ok tt, [x2a; x2a; x2d; xff]).
Proof.
  apply (proj2 (zero_length_line_paints_nothing 660 400 (Py.PFloat Py.f0_6)
                  (Py.PInt 162) (Py.PInt 8) 200 210 230 200 [x2a; x2a; x2d; xff]));
    reflexivity.
Defined.




(** ** Floats: signs and magnitudes through rounding *)

Lemma digits2_log2 m : Zpos (digits2_pos m) = Z.log2 (Zpos m) + 1.
Proof.
  induction m as [m IH|m IH|]; cbn [digits2_pos]; try reflexivity.
  - rewrite Pos2Z.inj_succ, IH. destruct m; cbn; lia.
  - rewrite Pos2Z.inj_succ, IH. destruct m; cbn; lia.
Qed.

Lemma Zdigits2_nonneg a : 0 <= Zdigits2 a.
Proof. destruct a; cbn; lia. Qed.

Lemma Zdigits2_mono a b : 0 <= a <= b -> Zdigits2 a <= Zdigits2 b.
Proof.
  intros [Ha Hab]. destruct a as [|a|a]; [apply Zdigits2_nonneg | | lia].
  destruct b as [|b|b]; try lia.
  cbn [Zdigits2]. rewrite !digits2_log2.
  pose proof (Z.log2_le_mono (Zpos a) (Zpos b) Hab). lia.
Qed.

Lemma Zdigits2_succ a : 0 <= a -> Zdigits2 (a + 1) <= Zdigits2 a + 1.
Proof.
  intros Ha. destruct a as [|a|a]; [cbv; discriminate | | lia].
  change (Zpos a + 1) with (Zpos (a + 1)). cbn [Zdigits2]. rewrite !digits2_log2.
  assert (H : Z.log2 (Zpos (a + 1)) <= Z.log2 (2 * Zpos a))
    by (apply Z.log2_le_mono; rewrite Pos2Z.inj_add; lia).
  rewrite Z.log2_double in H by lia. lia.
Qed.

Lemma shr_1_m r : 0 <= shr_m r -> shr_m (shr_1 r) = Z.div2 (shr_m r).
Proof. destruct r as [[|[m|m|]|m] b1 b2]; cbn; intros; try reflexivity; lia. Qed.

Lemma iter_shr_m p : forall r, 0 <= shr_m r ->
  shr_m (SpecFloat.iter_pos shr_1 p r) = Z.shiftr (shr_m r) (Zpos p).
Proof.
  assert (Hd : forall a, 0 <= a -> 0 <= Z.div2 a) by (intros; apply Z.div2_nonneg; lia).
  assert (Hs : forall a n, 0 <= a -> 0 <= Z.shiftr a n) by (intros; apply Z.shiftr_nonneg; lia).
  induction p as [p IH|p IH|]; intros r Hr; cbn [SpecFloat.iter_pos].
  - assert (H1 : 0 <= shr_m (shr_1 r)) by (rewrite shr_1_m; auto).
    assert (H2 : 0 <= shr_m (SpecFloat.iter_pos shr_1 p (shr_1 r))) by (rewrite IH; auto).
    rewrite (IH _ H2), (IH _ H1), shr_1_m by assumption.
    rewrite Z.div2_spec, !Z.shiftr_shiftr by lia. f_equal. lia.
  - assert (H2 : 0 <= shr_m (SpecFloat.iter_pos shr_1 p r)) by (rewrite IH; auto).
    rewrite (IH _ H2), (IH _ Hr).
    rewrite !Z.shiftr_shiftr by lia. f_equal. lia.
  - rewrite shr_1_m by assumption. now rewrite Z.div2_spec.
Qed.

Lemma Zdigits2_shiftr a n : 0 <= a -> 0 <= n ->
  Zdigits2 (Z.shiftr a n) <= Z.max 0 (Zdigits2 a - n).
Proof.
  intros Ha Hn.
  assert (0 <= Z.shiftr a n) by (apply Z.shiftr_nonneg; lia).
  destruct (Z.shiftr a n) as [|q|q] eqn:E; [cbn; lia | | lia].
  destruct a as [|a|a]; [rewrite Z.shiftr_0_l in E; discriminate | | lia].
  assert (n <= Z.log2 (Zpos a)).
  { destruct (Z_lt_dec (Z.log2 (Zpos a)) n) as [Hlt|]; [| lia].
    rewrite (Z.shiftr_eq_0 (Zpos a) n) in E by lia. discriminate E. }
  cbn [Zdigits2]. rewrite !digits2_log2, <- E, Z.log2_shiftr by lia. lia.
Qed.

Lemma shr_record_of_loc_m m l : shr_m (shr_record_of_loc m l) = m.
Proof. destruct l as [|[]]; reflexivity. Qed.

Lemma round_nearest_even_bounds m l : m <= round_nearest_even m l <= m + 1.
Proof. destruct l as [|[]]; cbn; try lia. destruct (Z.even m); lia. Qed.

(** After a right shift onto the exponent [fexp] asks for, at most
    [prec] digits are left. *)
Lemma shr_fexp_spec m e l :
  0 <= m ->
  let '(r, e') := shr_fexp Py.prec Py.emax m e l in
  0 <= shr_m r <= m /\
  e' = Z.max e (fexp Py.prec Py.emax (Zdigits2 m + e)) /\
  (Zdigits2 (shr_m r) <= Z.max 0 (Zdigits2 m + e - e')).
Proof.
  intros Hm. unfold shr_fexp, shr.
  set (n := fexp Py.prec Py.emax (Zdigits2 m + e) - e).
  destruct n as [|p|p] eqn:En; rewrite ?shr_record_of_loc_m.
  - split; [lia|]. split; [lia|]. pose proof (Zdigits2_nonneg m). lia.
  - rewrite iter_shr_m by (rewrite shr_record_of_loc_m; lia).
    rewrite shr_record_of_loc_m.
    split.
    + split; [apply Z.shiftr_nonneg; lia|].
      rewrite Z.shiftr_div_pow2 by lia.
      assert (0 < 2 ^ Z.pos p) by (apply Z.pow_pos_nonneg; lia).
      apply Z.div_le_upper_bound; [lia|].
      assert (0 < 2 ^ Z.pos p) by (apply Z.pow_pos_nonneg; lia). nia.
    + split; [lia|].
      pose proof (Zdigits2_shiftr m (Zpos p) Hm ltac:(lia)). lia.
  - split; [lia|]. split; [lia|]. pose proof (Zdigits2_nonneg m). lia.
Qed.

Lemma fbelow_below h f : fbelow h f = true <-> below false h f.
Proof.
  unfold below. split.
  - destruct f as [[]| | |[] m e]; cbn; try discriminate; [now left |].
    rewrite andb_true_iff, !Z.leb_le. intros [H1 H2]. right. now exists m, e.
  - intros [-> | (m & e & -> & H1 & H2)]; cbn; [reflexivity |].
    rewrite andb_true_iff, !Z.leb_le. now split.
Qed.

Lemma below_mono sx h h' f : h <= h' -> below sx h f -> below sx h' f.
Proof.
  intros Hh [-> | (m & e & -> & H1 & H2)]; [now left |].
  right. exists m, e. repeat split; lia.
Qed.

Lemma binary_round_aux_below sx m e l h :
  0 < m ->
  Z.max e (fexp Py.prec Py.emax (Zdigits2 m + e)) + 1 <= h -> h <= 971 ->
  below sx h (binary_round_aux Py.prec Py.emax sx m e l).
Proof.
  intros Hm Hh Hmax. unfold binary_round_aux.
  pose proof (shr_fexp_spec m e l ltac:(lia)) as H1.
  destruct (shr_fexp Py.prec Py.emax m e l) as [r1 e1].
  destruct H1 as (Hr1 & He1 & Hd1).
  pose proof (round_nearest_even_bounds (shr_m r1) (loc_of_shr_record r1)) as Hrne.
  set (m1 := round_nearest_even (shr_m r1) (loc_of_shr_record r1)) in *.
  pose proof (shr_fexp_spec m1 e1 loc_Exact ltac:(lia)) as H2.
  destruct (shr_fexp Py.prec Py.emax m1 e1 loc_Exact) as [r2 e2].
  destruct H2 as (Hr2 & He2 & Hd2).
  assert (Hm1 : Zdigits2 m1 <= 54).
  { pose proof (Zdigits2_mono m1 (shr_m r1 + 1) ltac:(lia)).
    pose proof (Zdigits2_succ (shr_m r1) ltac:(lia)).
    unfold fexp, emin, Py.prec, Py.emax in *. lia. }
  assert (Hm2 : Zdigits2 (shr_m r2) <= 54).
  { pose proof (Zdigits2_mono (shr_m r2) m1 ltac:(lia)). lia. }
  assert (He : e2 <= h) by (unfold fexp, emin, Py.prec, Py.emax in *; lia).
  destruct (shr_m r2) as [|p|p] eqn:E; [now left | | lia].
  replace (e2 <=? Py.emax - Py.prec) with true
    by (symmetry; apply Z.leb_le; unfold Py.prec, Py.emax; lia).
  right. exists p, e2. repeat split; assumption.
Qed.

Lemma pos_iter_xO m d : Zpos (Pos.iter xO m d) = Zpos m * 2 ^ Zpos d.
Proof.
  induction d as [|d IH] using Pos.peano_ind.
  - cbn. lia.
  - rewrite Pos.iter_succ, Pos2Z.inj_succ, Z.pow_succ_r by lia.
    rewrite Pos2Z.inj_xO, IH. lia.
Qed.

Lemma shl_align_spec m e e' :
  snd (shl_align m e e') = Z.min e e' /\
  Zpos (fst (shl_align m e e')) = Zpos m * 2 ^ (e - Z.min e e').
Proof.
  unfold shl_align. destruct (e' - e) as [|d|d] eqn:E; cbn [fst snd].
  - replace (Z.min e e') with e by lia. rewrite Z.sub_diag. lia.
  - replace (Z.min e e') with e by lia. rewrite Z.sub_diag. lia.
  - replace (Z.min e e') with e' by lia. rewrite pos_iter_xO.
    split; [reflexivity |]. do 2 f_equal. lia.
Qed.

Lemma Zdigits2_mul_pow2 m k : 0 <= k ->
  Zdigits2 (Zpos m * 2 ^ k) = Zdigits2 (Zpos m) + k.
Proof.
  intros Hk. assert (0 < 2 ^ k) by (apply Z.pow_pos_nonneg; lia).
  destruct (Zpos m * 2 ^ k) as [|q|q] eqn:E; try lia.
  cbn [Zdigits2]. rewrite !digits2_log2, <- E, Z.log2_mul_pow2 by lia. lia.
Qed.

Lemma binary_round_below sx m e h :
  Z.max e (fexp Py.prec Py.emax (Zpos (digits2_pos m) + e)) + 1 <= h -> h <= 971 ->
  below sx h (binary_round Py.prec Py.emax sx m e).
Proof.
  intros Hh Hmax. unfold binary_round.
  pose proof (shl_align_spec m e (fexp Py.prec Py.emax (Zpos (digits2_pos m) + e))) as [H1 H2].
  destruct (shl_align m e _) as [mz ez]. cbn [fst snd] in H1, H2.
  apply binary_round_aux_below; [lia | | assumption].
  rewrite H2, Zdigits2_mul_pow2 by lia. cbn [Zdigits2].
  replace (Zpos (digits2_pos m) + (e - Z.min e (fexp Py.prec Py.emax (Zpos (digits2_pos m) + e))) + ez)
    with (Zpos (digits2_pos m) + e) by lia.
  lia.
Qed.

Lemma Zdigits2_pos_mul a b :
  Zpos (digits2_pos (a * b)) <= Zpos (digits2_pos a) + Zpos (digits2_pos b).
Proof.
  rewrite !digits2_log2, Pos2Z.inj_mul.
  pose proof (Z.log2_mul_above (Zpos a) (Zpos b) ltac:(lia) ltac:(lia)). lia.
Qed.

Lemma fmul_below x y h1 h2 h :
  below false h1 x -> below false h2 y ->
  Z.max (h1 + h2 + 56) (-1073) <= h -> h <= 971 ->
  below false h (Py.fmul x y).
Proof.
  intros [-> | (mx & ex & -> & Hdx & Hex)] [-> | (my & ey & -> & Hdy & Hey)] Hh Hmax;
    try (now left).
  unfold Py.fmul, SFmul. cbn [xorb].
  apply binary_round_aux_below; [lia | | assumption].
  cbn [Zdigits2]. pose proof (Zdigits2_pos_mul mx my).
  unfold fexp, emin, Py.prec, Py.emax. lia.
Qed.

Lemma Zdigits2_add a b :
  0 < a -> 0 < b -> Zdigits2 (a + b) <= Z.max (Zdigits2 a) (Zdigits2 b) + 1.
Proof.
  intros Ha Hb.
  assert (H : forall c, 0 < c -> Zdigits2 (2 * c) = Zdigits2 c + 1).
  { intros [|c|c] Hc; try lia.
    change (2 * Zpos c) with (Zpos c~0). cbn [Zdigits2 digits2_pos].
    now rewrite Pos2Z.inj_succ. }
  destruct (Z_le_dec a b).
  - pose proof (Zdigits2_mono (a + b) (2 * b) ltac:(lia)). rewrite H in *; lia.
  - pose proof (Zdigits2_mono (a + b) (2 * a) ltac:(lia)). rewrite H in *; lia.
Qed.

Lemma fadd_below x y h1 h2 h :
  below false h1 x -> below false h2 y ->
  Z.max (Z.max h1 h2 + 3) (-1073) <= h -> h <= 971 ->
  below false h (Py.fadd x y).
Proof.
  intros Hx Hy Hh Hmax.
  destruct Hx as [-> | (mx & ex & -> & Hdx & Hex)].
  - destruct Hy as [-> | (my & ey & -> & Hdy & Hey)]; [now left |].
    right. exists my, ey. repeat split; lia.
  - destruct Hy as [-> | (my & ey & -> & Hdy & Hey)].
    + right. exists mx, ex. repeat split; lia.
    + unfold Py.fadd, SFadd. cbn [cond_Zopp].
      set (ez := Z.min ex ey).
      pose proof (shl_align_spec mx ex ez) as [_ HA].
      pose proof (shl_align_spec my ey ez) as [_ HB].
      replace (Z.min ex ez) with ez in HA by lia.
      replace (Z.min ey ez) with ez in HB by lia.
      set (A := fst (shl_align mx ex ez)) in *.
      set (B := fst (shl_align my ey ez)) in *.
      change (Zpos A + Zpos B) with (Zpos (A + B)).
      cbn [binary_normalize].
      apply binary_round_below; [| assumption].
      pose proof (Zdigits2_add (Zpos A) (Zpos B) ltac:(lia) ltac:(lia)) as Hd.
      rewrite HA, HB, !Zdigits2_mul_pow2 in Hd by lia.
      rewrite <- HA, <- HB in Hd. change (Zpos A + Zpos B) with (Zpos (A + B)) in Hd.
      cbn [Zdigits2] in Hd.
      unfold fexp, emin, Py.prec, Py.emax. lia.
Qed.

Lemma float_of_int_below c :
  0 <= c < 2 ^ 53 ->
  exists f, Py.float_of_int c = Ok f /\ below false 1 f.
Proof.
  intros Hc. unfold Py.float_of_int.
  destruct c as [|c|c]; [| | lia].
  - exists (S754_zero false). split; [reflexivity | now left].
  - cbn [binary_normalize].
    assert (Hb : below false 1 (binary_round Py.prec Py.emax false c 0)).
    { apply binary_round_below; [| lia].
      assert (Z.log2 (Zpos c) < 53) by (apply Z.log2_lt_pow2; lia).
      rewrite digits2_log2. unfold fexp, emin, Py.prec, Py.emax. lia. }
    destruct Hb as [E | (m & e & E & Hb)]; rewrite E.
    + eexists. split; [reflexivity | now left].
    + eexists. split; [reflexivity |]. right. now exists m, e.
Qed.

Lemma int_of_float_below h f :
  below false h f -> exists v, Py.int_of_float f = Ok v /\ 0 <= v.
Proof.
  intros [-> | (m & e & -> & _)].
  - exists 0. split; [reflexivity | lia].
  - eexists. split; [reflexivity |]. cbn [cond_Zopp].
    apply Z.shiftl_nonneg. lia.
Qed.

(** ** Blending never fails on bytes *)

Lemma alpha_table : forallb alpha_ok (range_Z 0 256) = true.
Proof. vm_compute. reflexivity. Qed.

Lemma alpha_weights a :
  0 <= a <= 255 ->
  exists fa om,
    Py.truediv (Py.PInt a) (Py.PFloat Py.f255) = Ok (Py.PFloat fa) /\
    Py.sub (Py.PInt 1) (Py.PFloat fa) = Ok (Py.PFloat om) /\
    below false 0 fa /\ below false 0 om.
Proof.
  intros Ha.
  pose proof (forallb_range_Z alpha_ok 0 256 alpha_table a ltac:(lia)) as H.
  unfold alpha_ok in H.
  destruct (Py.truediv (Py.PInt a) (Py.PFloat Py.f255)) as [[z|fa]|e]; try discriminate H.
  apply andb_true_iff in H as [H1 H2].
  destruct (Py.sub (Py.PInt 1) (Py.PFloat fa)) as [[z|om]|e] eqn:E; try discriminate H2.
  exists fa, om. rewrite <- !fbelow_below. repeat split; assumption.
Qed.

Lemma blend_channel_total fa om c p :
  Py.sub (Py.PInt 1) (Py.PFloat fa) = Ok (Py.PFloat om) ->
  below false 0 fa -> below false 0 om ->
  0 <= c < 2 ^ 53 -> 0 <= p < 2 ^ 53 ->
  exists v, blend_channel c (Py.PFloat fa) p = Ok v /\ 0 <= v.
Proof.
  intros Hom Hfa Hbom Hc Hp. unfold blend_channel, blend_sum. rewrite Hom.
  destruct (float_of_int_below c Hc) as (fc & Efc & Hfc).
  destruct (float_of_int_below p Hp) as (fp & Efp & Hfp).
  cbn [Py.mul Py.to_float res_bind]. rewrite Efc, Efp.
  cbn [Py.add Py.to_float res_bind Py.int].
  apply (int_of_float_below 100).
  apply (fadd_below _ _ 57 57); [| | lia | lia].
  - apply (fmul_below _ _ 1 0); [assumption | assumption | lia | lia].
  - apply (fmul_below _ _ 1 0); [assumption | assumption | lia | lia].
Qed.

(** ** Bytes and the buffer *)

Lemma Z_of_byte_range b : 0 <= Z_of_byte b <= 255.
Proof. unfold Z_of_byte. pose proof (Byte.to_N_bounded b). lia. Qed.

Lemma Z_of_byte_of z : 0 <= z < 256 -> Z_of_byte (byte_of z) = z.
Proof.
  intros Hz. unfold byte_of, Z_of_byte. rewrite Z.mod_small by lia.
  destruct (Byte.of_N (Z.to_N z)) as [b|] eqn:E.
  - apply Byte.to_of_N in E. rewrite E. lia.
  - apply Byte.of_N_None_iff in E. lia.
Qed.

Lemma byte_of_Z_of_byte b : byte_of (Z_of_byte b) = b.
Proof.
  pose proof (Z_of_byte_range b) as Hb.
  unfold byte_of. rewrite Z.mod_small by lia.
  unfold Z_of_byte. rewrite N2Z.id, Byte.of_to_N. reflexivity.
Qed.

Lemma byte_at_Some s j v :
  byte_at s j = Some v -> 0 <= j < Z.of_nat (length s) /\ 0 <= v <= 255.
Proof.
  unfold byte_at. destruct (0 <=? j) eqn:E; [| discriminate].
  apply Z.leb_le in E.
  destruct (s !! Z.to_nat j) as [b|] eqn:Eb; [| discriminate].
  intros [= <-]. apply lookup_lt_Some in Eb.
  pose proof (Z_of_byte_range b). lia.
Qed.

Lemma byte_at_is_Some s j :
  0 <= j < Z.of_nat (length s) -> exists v, byte_at s j = Some v.
Proof.
  intros Hj. unfold byte_at.
  replace (0 <=? j) with true by (symmetry; apply Z.leb_le; lia).
  destruct (lookup_lt_is_Some_2 s (Z.to_nat j) ltac:(lia)) as [b Eb].
  rewrite Eb. now eexists.
Qed.

Lemma store_length s i v : length (store s i v) = length s.
Proof. apply length_insert. Qed.

Lemma byte_at_store_eq s i v :
  0 <= i < Z.of_nat (length s) -> 0 <= v < 256 ->
  byte_at (store s i v) i = Some v.
Proof.
  intros Hi Hv. unfold byte_at, store.
  replace (0 <=? i) with true by (symmetry; apply Z.leb_le; lia).
  rewrite list_lookup_insert_eq by lia. cbn. now rewrite Z_of_byte_of.
Qed.

Lemma byte_at_store_ne s i v j :
  0 <= i -> i <> j -> byte_at (store s i v) j = byte_at s j.
Proof.
  intros Hi Hne. unfold byte_at, store.
  destruct (0 <=? j) eqn:E; [| reflexivity]. apply Z.leb_le in E.
  rewrite list_lookup_insert_ne by lia. reflexivity.
Qed.

Lemma getitem_at s i v : byte_at s i = Some v -> getitem i s = (Ok v, s).
Proof.
  intros H. destruct (byte_at_Some _ _ _ H) as [Hi _].
  unfold getitem, py_index.
  replace (i <? 0) with false by (symmetry; apply Z.ltb_ge; lia).
  replace ((0 <=? i) && (i <? Z.of_nat (length s))) with true
    by (symmetry; apply andb_true_iff; split; [apply Z.leb_le | apply Z.ltb_lt]; lia).
  unfold byte_at in H.
  replace (0 <=? i) with true in H by (symmetry; apply Z.leb_le; lia).
  destruct (s !! Z.to_nat i) as [b|]; [| discriminate]. now injection H as <-.
Qed.

Lemma setitem_at s i v :
  0 <= i < Z.of_nat (length s) -> 0 <= v < 256 ->
  setitem i v s = (Ok tt, store s i v).
Proof.
  intros Hi Hv. unfold setitem, py_index.
  replace ((0 <=? v) && (v <? 256)) with true
    by (symmetry; apply andb_true_iff; split; [apply Z.leb_le | apply Z.ltb_lt]; lia).
  replace (i <? 0) with false by (symmetry; apply Z.ltb_ge; lia).
  replace ((0 <=? i) && (i <? Z.of_nat (length s))) with true
    by (symmetry; apply andb_true_iff; split; [apply Z.leb_le | apply Z.ltb_lt]; lia).
  reflexivity.
Qed.

Lemma blend_store_at s i c fa p v :
  byte_at s i = Some p -> blend_channel c fa p = Ok v -> 0 <= v ->
  blend_store i c fa s = (Ok tt, store s i (Z.min 255 v)).
Proof.
  intros Hp Hv Hv0. unfold blend_store. unfold blend_channel in Hv.
  destruct (Py.mul (Py.PInt c) fa) as [t1|]; [| discriminate Hv].
  cbn [res_bind] in Hv. rewrite bind_lift_ok.
  rewrite (bind_ok _ _ _ _ _ (getitem_at _ _ _ Hp)).
  rewrite Hv, bind_lift_ok.
  apply setitem_at; [| lia]. now apply byte_at_Some in Hp.
Qed.

(** ** What [set_pixel] does inside the canvas *)

Lemma store4_spec s i v0 v1 v2 v3 :
  0 <= i -> i + 3 < Z.of_nat (length s) ->
  0 <= v0 < 256 -> 0 <= v1 < 256 -> 0 <= v2 < 256 -> 0 <= v3 < 256 ->
  length (store4 s i v0 v1 v2 v3) = length s /\
  byte_at (store4 s i v0 v1 v2 v3) i = Some v0 /\
  byte_at (store4 s i v0 v1 v2 v3) (i + 1) = Some v1 /\
  byte_at (store4 s i v0 v1 v2 v3) (i + 2) = Some v2 /\
  byte_at (store4 s i v0 v1 v2 v3) (i + 3) = Some v3 /\
  (forall j, j < i \/ i + 3 < j ->
     byte_at (store4 s i v0 v1 v2 v3) j = byte_at s j).
Proof.
  intros Hi Hlen H0 H1 H2 H3. unfold store4.
  repeat split.
  - now rewrite !store_length.
  - rewrite !byte_at_store_ne by lia. apply byte_at_store_eq; lia.
  - rewrite !byte_at_store_ne by lia.
    apply byte_at_store_eq; rewrite ?store_length; lia.
  - rewrite !byte_at_store_ne by lia.
    apply byte_at_store_eq; rewrite ?store_length; lia.
  - apply byte_at_store_eq; rewrite ?store_length; lia.
  - intros j Hj. now rewrite !byte_at_store_ne by lia.
Qed.

Lemma canvas_index width height x y :
  in_canvas width height x y = true ->
  0 <= (y * width + x) * 4 /\ (y * width + x) * 4 + 3 < width * height * 4.
Proof.
  unfold in_canvas. rewrite !andb_true_iff, !Z.leb_le, !Z.ltb_lt.
  intros [[[Hx0 Hx1] Hy0] Hy1]. split; [nia |].
  assert (y * width + x < height * width) by nia. lia.
Qed.

Lemma pixel_at_Some width s x y R G B A :
  pixel_at width s x y = Some (R, G, B, A) ->
  byte_at s ((y * width + x) * 4) = Some R /\
  byte_at s ((y * width + x) * 4 + 1) = Some G /\
  byte_at s ((y * width + x) * 4 + 2) = Some B /\
  byte_at s ((y * width + x) * 4 + 3) = Some A.
Proof.
  unfold pixel_at.
  destruct (byte_at s ((y * width + x) * 4)); [| discriminate].
  destruct (byte_at s ((y * width + x) * 4 + 1)); [| discriminate].
  destruct (byte_at s ((y * width + x) * 4 + 2)); [| discriminate].
  destruct (byte_at s ((y * width + x) * 4 + 3)); [| discriminate].
  intros [= -> -> -> ->]. auto.
Qed.

Lemma pixel_at_inside width height s x y :
  in_canvas width height x y = true ->
  Z.of_nat (length s) = width * height * 4 ->
  exists R G B A, pixel_at width s x y = Some (R, G, B, A).
Proof.
  intros Hin Hlen. destruct (canvas_index _ _ _ _ Hin) as [H0 H3].
  unfold pixel_at.
  destruct (byte_at_is_Some s ((y * width + x) * 4) ltac:(lia)) as [R ->].
  destruct (byte_at_is_Some s ((y * width + x) * 4 + 1) ltac:(lia)) as [G ->].
  destruct (byte_at_is_Some s ((y * width + x) * 4 + 2) ltac:(lia)) as [B ->].
  destruct (byte_at_is_Some s ((y * width + x) * 4 + 3) ltac:(lia)) as [A ->].
  now exists R, G, B, A.
Qed.

(** Overwriting: the stored alpha is 0. *)
Lemma set_pixel_overwrite width height x y r g b a s R G B :
  in_canvas width height x y = true ->
  pixel_at width s x y = Some (R, G, B, 0) ->
  0 <= r < 256 -> 0 <= g < 256 -> 0 <= b < 256 -> 0 <= a < 256 ->
  set_pixel width height x y r g b a s =
    (Ok tt, store4 s ((y * width + x) * 4) r g b a).
Proof.
  intros Hin Hpx Hr Hg Hb Ha.
  destruct (canvas_index _ _ _ _ Hin) as [H0 _].
  destruct (pixel_at_Some _ _ _ _ _ _ _ _ Hpx) as (_ & _ & _ & HA).
  pose proof (byte_at_Some _ _ _ HA) as [Hlen _].
  unfold set_pixel. rewrite Hin.
  rewrite (bind_ok _ _ _ _ _ (getitem_at _ _ _ HA)).
  cbn [Z.eqb]. unfold store4.
  set (idx := (y * width + x) * 4) in *.
  rewrite (bind_ok _ _ _ _ _ (setitem_at s idx r ltac:(lia) Hr)).
  rewrite (bind_ok _ _ _ _ _ (setitem_at (store s idx r) (idx + 1) g
             ltac:(rewrite !store_length; lia) Hg)).
  rewrite (bind_ok _ _ _ _ _ (setitem_at (store (store s idx r) (idx + 1) g) (idx + 2) b
             ltac:(rewrite !store_length; lia) Hb)).
  apply setitem_at; [rewrite !store_length; lia | assumption].
Qed.

(** Blending: the stored alpha is not 0. *)
Lemma set_pixel_blend width height x y r g b a s R G B A :
  in_canvas width height x y = true ->
  pixel_at width s x y = Some (R, G, B, A) -> A <> 0 ->
  0 <= r < 256 -> 0 <= g < 256 -> 0 <= b < 256 -> 0 <= a < 256 ->
  exists fa vr vg vb,
    Py.truediv (Py.PInt a) (Py.PFloat Py.f255) = Ok fa /\
    blend_channel r fa R = Ok vr /\ 0 <= vr /\
    blend_channel g fa G = Ok vg /\ 0 <= vg /\
    blend_channel b fa B = Ok vb /\ 0 <= vb /\
    set_pixel width height x y r g b a s =
      (Ok tt, store4 s ((y * width + x) * 4)
                (Z.min 255 vr) (Z.min 255 vg) (Z.min 255 vb) (Z.min 255 (A + a))).
Proof.
  intros Hin Hpx HA0 Hr Hg Hb Ha.
  destruct (canvas_index _ _ _ _ Hin) as [H0 _].
  destruct (pixel_at_Some _ _ _ _ _ _ _ _ Hpx) as (HR & HG & HB & HA).
  pose proof (byte_at_Some _ _ _ HA) as [Hlen HAr].
  pose proof (byte_at_Some _ _ _ HR) as [_ HRr].
  pose proof (byte_at_Some _ _ _ HG) as [_ HGr].
  pose proof (byte_at_Some _ _ _ HB) as [_ HBr].
  destruct (alpha_weights a ltac:(lia)) as (fa & om & Efa & Eom & Hfa & Hom).
  destruct (blend_channel_total fa om r R Eom Hfa Hom ltac:(lia) ltac:(lia))
    as (vr & Evr & Hvr).
  destruct (blend_channel_total fa om g G Eom Hfa Hom ltac:(lia) ltac:(lia))
    as (vg & Evg & Hvg).
  destruct (blend_channel_total fa om b B Eom Hfa Hom ltac:(lia) ltac:(lia))
    as (vb & Evb & Hvb).
  exists (Py.PFloat fa), vr, vg, vb.
  do 7 (split; [assumption |]).
  unfold set_pixel. rewrite Hin.
  rewrite (bind_ok _ _ _ _ _ (getitem_at _ _ _ HA)).
  replace (A =? 0) with false by (symmetry; apply Z.eqb_neq; assumption).
  rewrite Efa, bind_lift_ok. unfold store4.
  set (idx := (y * width + x) * 4) in *.
  rewrite (bind_ok _ _ _ _ _ (blend_store_at s idx r _ R vr HR Evr Hvr)).
  rewrite (bind_ok _ _ _ _ _ (blend_store_at (store s idx (Z.min 255 vr)) (idx + 1) g _ G vg
             ltac:(rewrite byte_at_store_ne by lia; exact HG) Evg Hvg)).
  rewrite (bind_ok _ _ _ _ _ (blend_store_at
             (store (store s idx (Z.min 255 vr)) (idx + 1) (Z.min 255 vg)) (idx + 2) b _ B vb
             ltac:(rewrite !byte_at_store_ne by lia; exact HB) Evb Hvb)).
  apply setitem_at; [rewrite !store_length; lia | lia].
Qed.

(** ** The alpha channel only grows *)

Lemma alpha_mono_refl s : alpha_mono s s.
Proof. split; [reflexivity |]. intros j v _ H. exists v. split; [assumption | lia]. Qed.

Lemma alpha_mono_trans s1 s2 s3 :
  alpha_mono s1 s2 -> alpha_mono s2 s3 -> alpha_mono s1 s3.
Proof.
  intros [L1 H1] [L2 H2]. split; [congruence |].
  intros j v Hj Hv. destruct (H1 j v Hj Hv) as (v' & Hv' & Hle).
  destruct (H2 j v' Hj Hv') as (v'' & Hv'' & Hle'). exists v''. split; [assumption | lia].
Qed.

Lemma post_bind {A B} (Q : bytearray -> Prop) (m : M A) (k : A -> M B) s :
  (forall e s1, m s = (Raise e, s1) -> Q s1) ->
  (forall a s1, m s = (Ok a, s1) -> Q (snd (k a s1))) ->
  Q (snd (bind m k s)).
Proof.
  intros Hr Hk. unfold bind. destruct (m s) as [[a|e] s1] eqn:E.
  - now apply Hk.
  - now apply (Hr e).
Qed.

Lemma getitem_state i s : snd (getitem i s) = s.
Proof.
  unfold getitem. destruct (py_index i _); [| reflexivity].
  now destruct (s !! n).
Qed.

Lemma getitem_Ok i s v s1 :
  0 <= i -> getitem i s = (Ok v, s1) -> s1 = s /\ byte_at s i = Some v.
Proof.
  intros Hi. unfold getitem, py_index, byte_at.
  replace (i <? 0) with false by (symmetry; apply Z.ltb_ge; lia).
  replace (0 <=? i) with true by (symmetry; apply Z.leb_le; lia).
  cbn [andb]. destruct (i <? Z.of_nat (length s)); [| discriminate].
  destruct (s !! Z.to_nat i) as [b|]; [| discriminate].
  now intros [= <- <-].
Qed.

Lemma setitem_cases i v s :
  0 <= i ->
  (exists e, setitem i v s = (Raise e, s)) \/
  (0 <= v < 256 /\ i < Z.of_nat (length s) /\ setitem i v s = (Ok tt, store s i v)).
Proof.
  intros Hi. unfold setitem, py_index.
  destruct ((0 <=? v) && (v <? 256)) eqn:Ev; [| left; now eexists].
  apply andb_true_iff in Ev as [Ev0 Ev1]. apply Z.leb_le in Ev0. apply Z.ltb_lt in Ev1.
  replace (i <? 0) with false by (symmetry; apply Z.ltb_ge; lia).
  replace (0 <=? i) with true by (symmetry; apply Z.leb_le; lia).
  cbn [andb]. destruct (i <? Z.of_nat (length s)) eqn:El; [| left; now eexists].
  apply Z.ltb_lt in El. right. repeat split; try lia.
Qed.

(** A store outside the alpha bytes. *)
Lemma store_keeps_alpha s0 s i v :
  0 <= i -> i mod 4 <> 3 -> alpha_mono s0 s -> alpha_mono s0 (store s i v).
Proof.
  intros Hi Hmod [L H]. split; [now rewrite store_length |].
  intros j w Hj Hw. rewrite byte_at_store_ne by (try lia; intros ->; contradiction).
  now apply H.
Qed.

Lemma setitem_keeps_alpha s0 s i v :
  0 <= i -> i mod 4 <> 3 -> alpha_mono s0 s -> alpha_mono s0 (snd (setitem i v s)).
Proof.
  intros Hi Hmod H.
  destruct (setitem_cases i v s Hi) as [[e ->] | (_ & _ & ->)]; cbn [snd].
  - assumption.
  - now apply store_keeps_alpha.
Qed.

Lemma blend_store_keeps_alpha s0 s i c fa :
  0 <= i -> i mod 4 <> 3 -> alpha_mono s0 s ->
  alpha_mono s0 (snd (blend_store i c fa s)).
Proof.
  intros Hi Hmod H. unfold blend_store.
  apply post_bind; [intros e s1 [= _ <-]; assumption |].
  intros t1 s0' [= _ <-].
  apply post_bind.
  - intros e s1 E. pose proof (getitem_state i s) as Hs. rewrite E in Hs. cbn in Hs.
    now subst s1.
  - intros p s1 E. pose proof (getitem_state i s) as Hs. rewrite E in Hs. cbn in Hs. subst s1.
    apply post_bind.
    + intros e s1 [= _ <-]. assumption.
    + intros v s1 [= _ <-]. now apply setitem_keeps_alpha.
Qed.

(** A store into the alpha byte that does not lower it. *)
Lemma setitem_raises_alpha s0 s i v old :
  0 <= i -> alpha_mono s0 s ->
  (forall w, byte_at s0 i = Some w -> w <= old) ->
  old <= v ->
  alpha_mono s0 (snd (setitem i v s)).
Proof.
  intros Hi H Hold Hv.
  destruct (setitem_cases i v s Hi) as [[e ->] | (Hv' & Hlen & ->)]; cbn [snd];
    [assumption |].
  destruct H as [L H]. split; [now rewrite store_length |].
  intros j w Hj Hw. destruct (Z.eq_dec i j) as [<- | Hne].
  - rewrite byte_at_store_eq by lia. exists v. split; [reflexivity |].
    specialize (Hold w Hw). lia.
  - rewrite byte_at_store_ne by lia. now apply H.
Qed.

Lemma pixel_index_mod k :
  (k * 4) mod 4 <> 3 /\ (k * 4 + 1) mod 4 <> 3 /\ (k * 4 + 2) mod 4 <> 3 /\
  (k * 4 + 3) mod 4 = 3.
Proof.
  rewrite Z.mod_mul by lia.
  rewrite !(Z.add_comm (k * 4)), !Z.mod_add by lia.
  repeat split; cbv; discriminate.
Qed.

Ltac run_step K sn Hn :=
  apply post_bind;
  [ let E := fresh "E" in let HK := fresh "HK" in
    intros ? ? E; pose proof K as HK; rewrite E in HK; exact HK
  | let E := fresh "E" in
    intros ? sn E; pose proof K as Hn; rewrite E in Hn; cbn [snd] in Hn; clear E ].

Lemma set_pixel_alpha_mono width height x y r g b a s :
  0 <= a <= 255 ->
  alpha_mono s (snd (set_pixel width height x y r g b a s)).
Proof.
  intros Ha. unfold set_pixel.
  destruct (in_canvas width height x y) eqn:Hin; [| apply alpha_mono_refl].
  destruct (canvas_index _ _ _ _ Hin) as [H0 _].
  destruct (pixel_index_mod (y * width + x)) as (M0 & M1 & M2 & M3).
  set (idx := (y * width + x) * 4) in *.
  apply post_bind.
  - intros e s1 E. pose proof (getitem_state (idx + 3) s) as Hs.
    rewrite E in Hs. cbn in Hs. subst s1. apply alpha_mono_refl.
  - intros old_a s1 E. apply getitem_Ok in E as [-> Hold]; [| lia].
    pose proof (byte_at_Some _ _ _ Hold) as [_ Hrange].
    destruct (old_a =? 0) eqn:E0.
    + apply Z.eqb_eq in E0. subst old_a.
      run_step (setitem_keeps_alpha s s idx r ltac:(lia) M0 (alpha_mono_refl s)) s1 K1.
      run_step (setitem_keeps_alpha s s1 (idx + 1) g ltac:(lia) M1 K1) s2 K2.
      run_step (setitem_keeps_alpha s s2 (idx + 2) b ltac:(lia) M2 K2) s3 K3.
      apply (setitem_raises_alpha s s3 (idx + 3) a 0); try assumption; try lia.
      intros w Hw. rewrite Hold in Hw. injection Hw as <-. lia.
    + apply post_bind; [intros e s1 [= _ <-]; apply alpha_mono_refl |].
      intros fa s1 [= _ <-].
      run_step (blend_store_keeps_alpha s s idx r fa ltac:(lia) M0 (alpha_mono_refl s)) s1 K1.
      run_step (blend_store_keeps_alpha s s1 (idx + 1) g fa ltac:(lia) M1 K1) s2 K2.
      run_step (blend_store_keeps_alpha s s2 (idx + 2) b fa ltac:(lia) M2 K2) s3 K3.
      apply (setitem_raises_alpha s s3 (idx + 3) _ old_a); try assumption; try lia.
      intros w Hw. rewrite Hold in Hw. injection Hw as <-. lia.
Qed.

Lemma run_calls_alpha_mono width height cs : forall s,
  Forall (fun c => 0 <= call_a c <= 255) cs ->
  alpha_mono s (snd (run_calls width height cs s)).
Proof.
  induction cs as [|c cs IH]; intros s Hcs.
  - apply alpha_mono_refl.
  - apply Forall_cons in Hcs as [Hc Hcs]. cbn [run_calls].
    pose proof (set_pixel_alpha_mono width height (call_x c) (call_y c)
                  (call_r c) (call_g c) (call_b c) (call_a c) s Hc) as H1.
    apply post_bind.
    + intros e s1 E. now rewrite E in H1.
    + intros [] s1 E. rewrite E in H1. cbn [snd] in H1.
      eapply alpha_mono_trans; [exact H1 | now apply IH].
Qed.

(** ** The compositor, claim by claim *)

Lemma pixel_at_store4 width s x y v0 v1 v2 v3 :
  0 <= (y * width + x) * 4 -> (y * width + x) * 4 + 3 < Z.of_nat (length s) ->
  0 <= v0 < 256 -> 0 <= v1 < 256 -> 0 <= v2 < 256 -> 0 <= v3 < 256 ->
  pixel_at width (store4 s ((y * width + x) * 4) v0 v1 v2 v3) x y = Some (v0, v1, v2, v3).
Proof.
  intros H0 Hlen Hv0 Hv1 Hv2 Hv3.
  destruct (store4_spec s _ v0 v1 v2 v3 H0 Hlen Hv0 Hv1 Hv2 Hv3)
    as (_ & E0 & E1 & E2 & E3 & _).
  unfold pixel_at. now rewrite E0, E1, E2, E3.
Qed.

Lemma set_pixel_inside width height x y r g b a s R G B A :
  in_canvas width height x y = true ->
  pixel_at width s x y = Some (R, G, B, A) ->
  0 <= r < 256 -> 0 <= g < 256 -> 0 <= b < 256 -> 0 <= a < 256 ->
  exists s',
    set_pixel width height x y r g b a s = (Ok tt, s') /\
    length s' = length s /\
    (forall j, j < (y * width + x) * 4 \/ (y * width + x) * 4 + 3 < j ->
       byte_at s' j = byte_at s j) /\
    (A = 0 -> pixel_at width s' x y = Some (r, g, b, a)) /\
    (A <> 0 ->
     exists fa vr vg vb,
       Py.truediv (Py.PInt a) (Py.PFloat Py.f255) = Ok fa /\
       blend_channel r fa R = Ok vr /\ 0 <= vr /\
       blend_channel g fa G = Ok vg /\ 0 <= vg /\
       blend_channel b fa B = Ok vb /\ 0 <= vb /\
       pixel_at width s' x y =
         Some (Z.min 255 vr, Z.min 255 vg, Z.min 255 vb, Z.min 255 (A + a))).
Proof.
  intros Hin Hpx Hr Hg Hb Ha.
  destruct (canvas_index _ _ _ _ Hin) as [H0 _].
  destruct (pixel_at_Some _ _ _ _ _ _ _ _ Hpx) as (_ & _ & _ & HA).
  pose proof (byte_at_Some _ _ _ HA) as [Hlen HAr].
  destruct (Z.eq_dec A 0) as [-> | HA0].
  - exists (store4 s ((y * width + x) * 4) r g b a).
    destruct (store4_spec s ((y * width + x) * 4) r g b a H0 ltac:(lia) Hr Hg Hb Ha)
      as (L & _ & _ & _ & _ & Hframe).
    split; [now apply (set_pixel_overwrite width height x y r g b a s R G B) |].
    split; [exact L |]. split; [exact Hframe |].
    split; [intros _; apply pixel_at_store4; lia | intros H; now destruct H].
  - destruct (set_pixel_blend width height x y r g b a s R G B A Hin Hpx HA0 Hr Hg Hb Ha)
      as (fa & vr & vg & vb & Efa & Evr & Hvr & Evg & Hvg & Evb & Hvb & Eset).
    eexists. split; [exact Eset |].
    destruct (store4_spec s ((y * width + x) * 4)
                (Z.min 255 vr) (Z.min 255 vg) (Z.min 255 vb) (Z.min 255 (A + a))
                H0 ltac:(lia) ltac:(lia) ltac:(lia) ltac:(lia) ltac:(lia))
      as (L & _ & _ & _ & _ & Hframe).
    split; [exact L |]. split; [exact Hframe |].
    split; [intros ->; now destruct HA0 |]. intros _.
    exists fa, vr, vg, vb. do 7 (split; [assumption |]).
    apply pixel_at_store4; lia.
Qed.

(** C3, as amended: an in-bounds call with colour bytes returns
    normally and changes the four bytes of its pixel only; over a stored
    alpha of 0 the pixel becomes [(r, g, b, a)]; otherwise each colour
    channel becomes [min(255, int(c * fa + p * (1 - fa)))], the double
    precision value truncated toward zero (it is never negative), and
    the alpha becomes [min(255, old + a)]. *)
Theorem set_pixel_composites width height x y r g b a s R G B A :
  in_canvas width height x y = true ->
  pixel_at width s x y = Some (R, G, B, A) ->
  0 <= r < 256 -> 0 <= g < 256 -> 0 <= b < 256 -> 0 <= a < 256 ->
  exists s',
    set_pixel width height x y r g b a s = (Ok tt, s') /\
    length s' = length s /\
    (forall j, j < (y * width + x) * 4 \/ (y * width + x) * 4 + 3 < j ->
       byte_at s' j = byte_at s j) /\
    (A = 0 -> pixel_at width s' x y = Some (r, g, b, a)) /\
    (A <> 0 ->
     exists fa vr vg vb,
       Py.truediv (Py.PInt a) (Py.PFloat Py.f255) = Ok fa /\
       blend_channel r fa R = Ok vr /\ 0 <= vr /\
       blend_channel g fa G = Ok vg /\ 0 <= vg /\
       blend_channel b fa B = Ok vb /\ 0 <= vb /\
       pixel_at width s' x y =
         Some (Z.min 255 vr, Z.min 255 vg, Z.min 255 vb, Z.min 255 (A + a))).
Proof. exact (set_pixel_inside width height x y r g b a s R G B A). Qed.


Lemma set_pixel_composites_witness :
  exists s',
    set_pixel 1 1 0 0 200 210 230 200 [x2a; x2a; x2d; xff] = (Ok tt, s') /\
    length s' = 4%nat /\
    (forall j, j < 0 \/ 3 < j -> byte_at s' j = byte_at [x2a; x2a; x2d; xff] j) /\
    (255 = 0 -> pixel_at 1 s' 0 0 = Some (200, 210, 230, 200)) /\
    (255 <> 0 ->
     exists fa vr vg vb,
       Py.truediv (Py.PInt 200) (Py.PFloat Py.f255) = Ok fa /\
       blend_channel 200 fa 42 = Ok vr /\ 0 <= vr /\
       blend_channel 210 fa 42 = Ok vg /\ 0 <= vg /\
       blend_channel 230 fa 45 = Ok vb /\ 0 <= vb /\
       pixel_at 1 s' 0 0 =
         Some (Z.min 255 vr, Z.min 255 vg, Z.min 255 vb, Z.min 255 (255 + 200))).
Proof.
  exact (set_pixel_composites 1 1 0 0 200 210 230 200 [x2a; x2a; x2d; xff] 42 42 45 255
           eq_refl eq_refl ltac:(lia) ltac:(lia) ltac:(lia) ltac:(lia)).
Defined.

(** The stored channel is not the clamped exact blend: colour 200 over
    a stored 200 with alpha 5 is exactly 200 in rational arithmetic and
    199 in the buffer; colour 200 over 42 with alpha 200 is 42310/255
    exactly and 165 in the buffer. *)
Lemma blend_formula_counterexample :
  (exists s',
     set_pixel 1 1 0 0 200 210 230 5 [xc8; xd2; xe6; xff] = (Ok tt, s') /\
     pixel_at 1 [xc8; xd2; xe6; xff] 0 0 = Some (200, 210, 230, 255) /\
     pixel_at 1 s' 0 0 = Some (199, 210, 229, 255) /\
     (over_blend 200 200 5 == inject_Z 200)%Q /\
     ~ (inject_Z 199 == over_blend 200 200 5)%Q) /\
  (exists s',
     set_pixel 1 1 0 0 200 210 230 200 [x2a; x2a; x2d; xff] = (Ok tt, s') /\
     pixel_at 1 s' 0 0 = Some (165, 173, 190, 255) /\
     ~ (inject_Z 165 == over_blend 200 42 200)%Q).
Proof.
  split.
  - eexists. split; [vm_compute; reflexivity |].
    split; [vm_compute; reflexivity |].
    split; [vm_compute; reflexivity |].
    split; [vm_compute; reflexivity |].
    intros H. vm_compute in H. discriminate H.
  - eexists. split; [vm_compute; reflexivity |].
    split; [vm_compute; reflexivity |].
    intros H. vm_compute in H. discriminate H.
Qed.

(** C4: over any sequence of [set_pixel] calls with source alphas in
    [0, 255] the stored alpha of every pixel stays at most 255 and never
    decreases; a call inside the canvas with colour bytes returns
    normally and leaves as the alpha of its pixel the call's alpha when
    the old alpha is 0 and [min(255, old + a)] otherwise. *)
Theorem alpha_saturating_accumulation :
  (forall width height cs s k v,
     Forall (fun c => 0 <= call_a c <= 255) cs ->
     byte_at s (4 * k + 3) = Some v ->
     exists v', byte_at (snd (run_calls width height cs s)) (4 * k + 3) = Some v' /\
                v <= v' <= 255) /\
  (forall width height x y r g b a s R G B A,
     in_canvas width height x y = true ->
     pixel_at width s x y = Some (R, G, B, A) ->
     0 <= r < 256 -> 0 <= g < 256 -> 0 <= b < 256 -> 0 <= a < 256 ->
     exists s' R' G' B',
       set_pixel width height x y r g b a s = (Ok tt, s') /\
       pixel_at width s' x y =
         Some (R', G', B', if A =? 0 then a else Z.min 255 (A + a)) /\
       A <= (if A =? 0 then a else Z.min 255 (A + a)) <= 255).
Proof.
  split.
  - intros width height cs s k v Hcs Hv.
    destruct (run_calls_alpha_mono width height cs s Hcs) as [_ H].
    destruct (H (4 * k + 3) v) as (v' & Hv' & Hle); [| assumption |].
    + rewrite Z.add_comm, Z.mul_comm, Z.mod_add by lia. reflexivity.
    + exists v'. split; [assumption |].
      apply byte_at_Some in Hv'. lia.
  - intros width height x y r g b a s R G B A Hin Hpx Hr Hg Hb Ha.
    destruct (set_pixel_inside width height x y r g b a s R G B A Hin Hpx Hr Hg Hb Ha)
      as (s' & Eset & _ & _ & Hzero & Hblend).
    destruct (pixel_at_Some _ _ _ _ _ _ _ _ Hpx) as (_ & _ & _ & HA).
    apply byte_at_Some in HA as [_ HA].
    destruct (Z.eqb_spec A 0) as [E | E].
    + exists s', r, g, b. split; [exact Eset |]. split; [now apply Hzero | lia].
    + destruct (Hblend E) as (fa & vr & vg & vb & _ & _ & _ & _ & _ & _ & _ & Hp).
      exists s', (Z.min 255 vr), (Z.min 255 vg), (Z.min 255 vb).
      split; [exact Eset |]. split; [exact Hp | lia].
Qed.

Lemma alpha_saturating_accumulation_witness :
  exists v',
    byte_at (snd (run_calls 1 1 [Call 0 0 10 20 30 100; Call 0 0 1 2 3 200]
                    [x2a; x2a; x2d; x07])) (4 * 0 + 3) = Some v' /\
    7 <= v' <= 255.
Proof.
  apply (proj1 alpha_saturating_accumulation 1 1
           [Call 0 0 10 20 30 100; Call 0 0 1 2 3 200] [x2a; x2a; x2d; x07] 0 7).
  - repeat constructor; cbn; lia.
  - reflexivity.
Defined.

(** ** Loops with an invariant that follows the counter *)

Lemma for_range_from_inv_at (P : Z -> bytearray -> Prop) body n : forall i s,
  (forall j s0, i <= j < i + Z.of_nat n -> P j s0 ->
     exists s1, body j s0 = (Ok tt, s1) /\ P (j + 1) s1) ->
  P i s ->
  exists s', for_range_from n i body s = (Ok tt, s') /\ P (i + Z.of_nat n) s'.
Proof.
  induction n as [|n IH]; intros i s Hbody HP.
  - exists s. split; [reflexivity |]. now rewrite Z.add_0_r.
  - destruct (Hbody i s) as (s1 & E1 & P1); [lia | assumption |].
    cbn [for_range_from]. rewrite (bind_ok _ _ _ _ _ E1).
    destruct (IH (i + 1) s1) as (s' & E' & P'); [| assumption |].
    + intros j s0 Hj. apply Hbody. lia.
    + exists s'. split; [assumption |].
      now replace (i + Z.of_nat (S n)) with (i + 1 + Z.of_nat n) by lia.
Qed.

Lemma for_range_inv_at (P : Z -> bytearray -> Prop) body lo hi s :
  lo <= hi ->
  (forall j s0, lo <= j < hi -> P j s0 ->
     exists s1, body j s0 = (Ok tt, s1) /\ P (j + 1) s1) ->
  P lo s ->
  exists s', for_range lo hi body s = (Ok tt, s') /\ P hi s'.
Proof.
  intros Hle Hbody HP. unfold for_range.
  destruct (for_range_from_inv_at P body (Z.to_nat (hi - lo)) lo s) as (s' & E & HP');
    [| assumption |].
  - intros j s0 Hj. apply Hbody. lia.
  - exists s'. split; [assumption |].
    now replace hi with (lo + Z.of_nat (Z.to_nat (hi - lo))) by lia.
Qed.

(** ** The pixels of the canvas *)

Lemma pixel_index_inj width x y x' y' :
  0 <= x < width -> 0 <= x' < width ->
  y * width + x = y' * width + x' -> x = x' /\ y = y'.
Proof.
  intros Hx Hx' E.
  assert (y = y') by nia. subst y'. split; [lia | reflexivity].
Qed.

Lemma pixel_at_frame width s s' x y :
  (forall j, (y * width + x) * 4 <= j <= (y * width + x) * 4 + 3 ->
     byte_at s' j = byte_at s j) ->
  pixel_at width s' x y = pixel_at width s x y.
Proof.
  intros H. unfold pixel_at. now rewrite !H by lia.
Qed.

Lemma in_canvas_bounds width height x y :
  in_canvas width height x y = true <-> (0 <= x < width /\ 0 <= y < height).
Proof. unfold in_canvas. rewrite !andb_true_iff, !Z.leb_le, !Z.ltb_lt. lia. Qed.

(** [set_pixel] with colour bytes keeps an opaque canvas opaque. *)
Lemma set_pixel_opaque width height x y r g b a s :
  0 <= r < 256 -> 0 <= g < 256 -> 0 <= b < 256 -> 0 <= a < 256 ->
  opaque width height s ->
  exists s', set_pixel width height x y r g b a s = (Ok tt, s') /\ opaque width height s'.
Proof.
  intros Hr Hg Hb Ha [Hlen Hop].
  destruct (in_canvas width height x y) eqn:Hin.
  - destruct (Hop x y Hin) as (R & G & B & Hpx).
    destruct (set_pixel_inside width height x y r g b a s R G B 255 Hin Hpx Hr Hg Hb Ha)
      as (s' & Eset & L & Hframe & _ & Hblend).
    exists s'. split; [assumption |]. split; [now rewrite L |].
    intros x' y' Hin'.
    destruct (Z.eq_dec (y' * width + x') (y * width + x)) as [E | E].
    + apply in_canvas_bounds in Hin, Hin'.
      apply pixel_index_inj in E as [-> ->]; try lia.
      destruct (Hblend ltac:(lia)) as (fa & vr & vg & vb & _ & _ & _ & _ & _ & _ & _ & Hp).
      rewrite Hp. replace (Z.min 255 (255 + a)) with 255 by lia. eauto.
    + rewrite (pixel_at_frame width s s' x' y'); [now apply Hop |].
      intros j Hj. apply Hframe. lia.
  - rewrite set_pixel_outside by assumption. exists s. split; [reflexivity |]. now split.
Qed.

Lemma paint_opaque width height px py r g b edge s :
  0 <= r < 256 -> 0 <= g < 256 -> 0 <= b < 256 ->
  edge_ok edge = true ->
  opaque width height s ->
  exists s', paint width height px py r g b edge s = (Ok tt, s') /\ opaque width height s'.
Proof.
  intros Hr Hg Hb He Hop. unfold paint.
  destruct edge as [[ea|]|e]; try discriminate He.
  - apply andb_true_iff in He as [H0 H1]. apply Z.leb_le in H0. apply Z.ltb_lt in H1.
    rewrite bind_lift_ok. apply set_pixel_opaque; try assumption. lia.
  - exists s. now split.
Qed.

Lemma draw_thick_line_opaque width height x1 y1 x2 y2 thickness r g b a s :
  0 <= r < 256 -> 0 <= g < 256 -> 0 <= b < 256 ->
  line_scan width height x1 y1 x2 y2 thickness a = true ->
  opaque width height s ->
  exists s', draw_thick_line width height x1 y1 x2 y2 thickness r g b a s = (Ok tt, s') /\
             opaque width height s'.
Proof.
  intros Hr Hg Hb Hscan Hop. unfold draw_thick_line, line_scan in *.
  destruct (line_setup width height x1 y1 x2 y2 thickness) as [[bx|]|e];
    try discriminate Hscan; rewrite bind_lift_ok.
  - apply for_range_inv; [| assumption].
    intros py s0 Hpy Hop0.
    pose proof (forallb_range_Z _ _ _ Hscan py Hpy) as Hrow. cbn beta in Hrow.
    apply for_range_inv; [| assumption].
    intros px s1 Hpx Hop1.
    pose proof (forallb_range_Z _ _ _ Hrow px Hpx) as Hedge. cbn beta in Hedge.
    now apply paint_opaque.
  - exists s. now split.
Qed.

Lemma draw_chevron_opaque width height cx cy half_h thickness r g b a s :
  0 <= r < 256 -> 0 <= g < 256 -> 0 <= b < 256 ->
  chevron_scan width height cx cy half_h thickness a = true ->
  opaque width height s ->
  exists s', draw_chevron width height cx cy half_h thickness r g b a s = (Ok tt, s') /\
             opaque width height s'.
Proof.
  intros Hr Hg Hb Hscan Hop. unfold draw_chevron, chevron_scan in *.
  destruct (Py.mul half_h (Py.PFloat Py.f0_6)) as [indent|]; [| discriminate Hscan].
  rewrite bind_lift_ok.
  destruct (Py.sub cx indent) as [top_x|]; [| discriminate Hscan].
  rewrite bind_lift_ok.
  destruct (Py.sub cy half_h) as [top_y|]; [| discriminate Hscan].
  rewrite bind_lift_ok.
  destruct (Py.add cx indent) as [mid_x|]; [| discriminate Hscan].
  rewrite bind_lift_ok. cbv zeta. rewrite bind_lift_ok.
  destruct (Py.add cy half_h) as [bot_y|]; [| discriminate Hscan].
  rewrite bind_lift_ok.
  apply andb_true_iff in Hscan as [H1 H2].
  destruct (draw_thick_line_opaque width height top_x top_y mid_x cy thickness
              r g b a s Hr Hg Hb H1 Hop) as (s1 & E1 & Hop1).
  rewrite (bind_ok _ _ _ _ _ E1).
  now apply draw_thick_line_opaque.
Qed.

Lemma arrow_scan :
  chevron_scan WIDTH HEIGHT (Py.PInt ((APP_ICON_X + APPS_ICON_X) / 2 - 22 / 2))
    (Py.PInt ICON_Y) (Py.PInt 28) (Py.PInt 8) 200 = true /\
  chevron_scan WIDTH HEIGHT (Py.PInt ((APP_ICON_X + APPS_ICON_X) / 2 + 22 / 2))
    (Py.PInt ICON_Y) (Py.PInt 28) (Py.PInt 8) 200 = true.
Proof. split; vm_compute; reflexivity. Qed.

Lemma draw_arrow_opaque s :
  opaque WIDTH HEIGHT s ->
  exists s', draw_arrow WIDTH HEIGHT s = (Ok tt, s') /\ opaque WIDTH HEIGHT s'.
Proof.
  intros Hop. destruct arrow_scan as [H1 H2]. unfold draw_arrow.
  cbv beta zeta iota.
  destruct (draw_chevron_opaque WIDTH HEIGHT _ _ _ _ 200 210 230 200 s
              ltac:(lia) ltac:(lia) ltac:(lia) H1 Hop) as (s1 & E1 & Hop1).
  rewrite (bind_ok _ _ _ _ _ E1).
  apply draw_chevron_opaque; try lia; assumption.
Qed.

(** ** The background gradient *)

Lemma gradient_rows : forallb gradient_row_ok (range_Z 0 HEIGHT) = true.
Proof. vm_compute. reflexivity. Qed.

Lemma gradient_row y :
  0 <= y < HEIGHT ->
  exists t, Py.truediv (Py.PInt y) (Py.PInt HEIGHT) = Ok t /\
            gradient_channel 42 t = Ok (42 + 6 * y / 400) /\
            gradient_channel 45 t = Ok (45 + 6 * y / 400).
Proof.
  intros Hy. pose proof (forallb_range_Z _ _ _ gradient_rows y Hy) as H.
  unfold gradient_row_ok in H.
  destruct (Py.truediv (Py.PInt y) (Py.PInt HEIGHT)) as [t|]; [| discriminate H].
  exists t. split; [reflexivity |].
  destruct (gradient_channel 42 t) as [r|]; [| discriminate H].
  destruct (gradient_channel 45 t) as [b|]; [| discriminate H].
  apply andb_true_iff in H as [H1 H2].
  apply Z.eqb_eq in H1, H2. now subst.
Qed.

Lemma gradient_pixel x y s :
  0 <= x < WIDTH -> 0 <= y < HEIGHT ->
  painted_upto (y * WIDTH + x) s ->
  exists s1,
    (let idx := (y * WIDTH + x) * 4 in
     bind (lift (Py.truediv (Py.PInt y) (Py.PInt HEIGHT))) (fun t =>
     bind (lift (gradient_channel 42 t)) (fun bg_r =>
     bind (lift (gradient_channel 42 t)) (fun bg_g =>
     bind (lift (gradient_channel 45 t)) (fun bg_b =>
     bind (setitem idx bg_r) (fun _ =>
     bind (setitem (idx + 1) bg_g) (fun _ =>
     bind (setitem (idx + 2) bg_b) (fun _ =>
     setitem (idx + 3) 255)))))))) s = (Ok tt, s1) /\
    painted_upto (y * WIDTH + x + 1) s1.
Proof.
  intros Hx Hy [Hlen Hp].
  destruct (gradient_row y Hy) as (t & Et & E42 & E45).
  cbv zeta. rewrite Et, bind_lift_ok, E42, !bind_lift_ok, E45, bind_lift_ok.
  set (idx := (y * WIDTH + x) * 4).
  set (c := 42 + 6 * y / 400). set (c' := 45 + 6 * y / 400).
  assert (Hq : 0 <= 6 * y / 400 < 6).
  { unfold HEIGHT in Hy.
    split; [apply Z.div_pos; lia | apply Z.div_lt_upper_bound; lia]. }
  assert (Hc : 0 <= c < 256) by (unfold c; lia).
  assert (Hc' : 0 <= c' < 256) by (unfold c'; lia).
  assert (Hidx : 0 <= idx /\ idx + 3 < Z.of_nat (length s))
    by (unfold idx, WIDTH, HEIGHT in *; lia).
  rewrite (bind_ok _ _ _ _ _ (setitem_at s idx c ltac:(lia) Hc)).
  rewrite (bind_ok _ _ _ _ _ (setitem_at (store s idx c) (idx + 1) c
             ltac:(rewrite !store_length; lia) Hc)).
  rewrite (bind_ok _ _ _ _ _ (setitem_at (store (store s idx c) (idx + 1) c) (idx + 2) c'
             ltac:(rewrite !store_length; lia) Hc')).
  rewrite (setitem_at _ (idx + 3) 255) by (rewrite ?store_length; lia).
  fold (store4 s idx c c c' 255).
  exists (store4 s idx c c c' 255). split; [reflexivity |].
  destruct (store4_spec s idx c c c' 255 ltac:(lia) ltac:(lia) Hc Hc Hc' ltac:(lia))
    as (L & _ & _ & _ & _ & Hframe).
  split; [now rewrite L |].
  intros x' y' Hx' Hy' Hlt.
  destruct (Z.eq_dec (y' * WIDTH + x') (y * WIDTH + x)) as [E | E].
  - apply pixel_index_inj in E as [-> ->]; try lia.
    apply pixel_at_store4; lia.
  - rewrite (pixel_at_frame WIDTH s _ x' y'); [apply Hp; lia |].
    intros j Hj. apply Hframe. unfold idx. lia.
Qed.

Lemma paint_gradient_spec :
  exists g,
    paint_gradient (bytearray_zeros (WIDTH * HEIGHT * 4)) = (Ok tt, g) /\
    painted_upto (HEIGHT * WIDTH) g.
Proof.
  unfold paint_gradient.
  apply (for_range_inv_at (fun y s => painted_upto (y * WIDTH) s)).
  - unfold HEIGHT. lia.
  - intros y s0 Hy Hp.
    destruct (for_range_inv_at (fun x s => painted_upto (y * WIDTH + x) s)
                (fun x =>
                   let idx := (y * WIDTH + x) * 4 in
                   bind (lift (Py.truediv (Py.PInt y) (Py.PInt HEIGHT))) (fun t =>
                   bind (lift (gradient_channel 42 t)) (fun bg_r =>
                   bind (lift (gradient_channel 42 t)) (fun bg_g =>
                   bind (lift (gradient_channel 45 t)) (fun bg_b =>
                   bind (setitem idx bg_r) (fun _ =>
                   bind (setitem (idx + 1) bg_g) (fun _ =>
                   bind (setitem (idx + 2) bg_b) (fun _ =>
                   setitem (idx + 3) 255))))))))
                0 WIDTH s0) as (s1 & E1 & Hp1).
    + unfold WIDTH. lia.
    + intros x s Hx Hs. replace (y * WIDTH + (x + 1)) with (y * WIDTH + x + 1) by lia.
      now apply gradient_pixel.
    + now rewrite Z.add_0_r.
    + exists s1. split; [exact E1 |].
      now replace ((y + 1) * WIDTH) with (y * WIDTH + WIDTH) by lia.
  - split.
    + unfold bytearray_zeros. rewrite length_replicate. unfold WIDTH, HEIGHT. lia.
    + intros x y Hx Hy Hlt. unfold WIDTH in *. lia.
Qed.

Lemma paint_gradient_pixels :
  exists g,
    paint_gradient (bytearray_zeros (WIDTH * HEIGHT * 4)) = (Ok tt, g) /\
    Z.of_nat (length g) = WIDTH * HEIGHT * 4 /\
    forall x y, 0 <= x < WIDTH -> 0 <= y < HEIGHT ->
      pixel_at WIDTH g x y =
        Some (42 + 6 * y / 400, 42 + 6 * y / 400, 45 + 6 * y / 400, 255).
Proof.
  destruct paint_gradient_spec as (g & E & Hlen & Hp).
  exists g. split; [exact E |]. split; [exact Hlen |].
  intros x y Hx Hy. apply Hp; unfold WIDTH, HEIGHT in *; lia.
Qed.

(** C6, as amended: painting the gradient returns normally; every pixel
    of row [y] then holds [(42 + q, 42 + q, 45 + q)] with
    [q = floor(6 * y / 400)], which is what the float computation
    [int(base + (y / 400) * 6)] yields, and alpha 255; the top row is
    (42, 42, 45) and the bottom row, [y = 399], is (47, 47, 50). *)
Theorem gradient_background :
  exists g,
    paint_gradient (bytearray_zeros (WIDTH * HEIGHT * 4)) = (Ok tt, g) /\
    (forall x y, 0 <= x < WIDTH -> 0 <= y < HEIGHT ->
       pixel_at WIDTH g x y =
         Some (42 + 6 * y / 400, 42 + 6 * y / 400, 45 + 6 * y / 400, 255) /\
       exists t, Py.truediv (Py.PInt y) (Py.PInt HEIGHT) = Ok t /\
                 gradient_channel 42 t = Ok (42 + 6 * y / 400) /\
                 gradient_channel 45 t = Ok (45 + 6 * y / 400)) /\
    (forall x, 0 <= x < WIDTH -> pixel_at WIDTH g x 0 = Some (42, 42, 45, 255)) /\
    (forall x, 0 <= x < WIDTH -> pixel_at WIDTH g x 399 = Some (47, 47, 50, 255)).
Proof.
  destruct paint_gradient_pixels as (g & E & _ & Hp).
  exists g. split; [exact E |]. split; [| split].
  - intros x y Hx Hy. split; [now apply Hp | now apply gradient_row].
  - intros x Hx. rewrite (Hp x 0 Hx) by (unfold HEIGHT; lia). reflexivity.
  - intros x Hx. rewrite (Hp x 399 Hx) by (unfold HEIGHT; lia). reflexivity.
Qed.

Lemma gradient_background_witness :
  exists g,
    paint_gradient (bytearray_zeros (WIDTH * HEIGHT * 4)) = (Ok tt, g) /\
    pixel_at WIDTH g 10 200 = Some (45, 45, 48, 255) /\
    pixel_at WIDTH g 10 0 = Some (42, 42, 45, 255) /\
    pixel_at WIDTH g 10 399 = Some (47, 47, 50, 255).
Proof.
  destruct gradient_background as (g & E & Hrow & Htop & Hbottom).
  exists g. split; [exact E |]. split; [| split].
  - destruct (Hrow 10 200) as [Hp _]; [unfold WIDTH; lia | unfold HEIGHT; lia |].
    exact Hp.
  - apply Htop. unfold WIDTH. lia.
  - apply Hbottom. unfold WIDTH. lia.
Defined.

(** The bottom row is (47, 47, 50), not (48, 48, 51). *)
Lemma gradient_bottom_row_counterexample :
  exists g,
    paint_gradient (bytearray_zeros (WIDTH * HEIGHT * 4)) = (Ok tt, g) /\
    pixel_at WIDTH g 0 399 = Some (47, 47, 50, 255) /\
    pixel_at WIDTH g 0 399 <> Some (48, 48, 51, 255).
Proof.
  destruct paint_gradient_pixels as (g & E & _ & Hp).
  exists g. split; [exact E |].
  assert (H : pixel_at WIDTH g 0 399 = Some (47, 47, 50, 255)).
  { rewrite (Hp 0 399) by (unfold WIDTH, HEIGHT; lia). reflexivity. }
  split; [exact H |]. rewrite H. discriminate.
Qed.

(** ** The scene *)

Lemma gradient_opaque :
  exists g,
    paint_gradient (bytearray_zeros (WIDTH * HEIGHT * 4)) = (Ok tt, g) /\
    opaque WIDTH HEIGHT g.
Proof.
  destruct paint_gradient_pixels as (g & E & Hlen & Hp).
  exists g. split; [exact E |]. split; [exact Hlen |].
  intros x y Hin. apply in_canvas_bounds in Hin as [Hx Hy].
  rewrite (Hp x y Hx Hy). eauto.
Qed.

(** C10: the scene of [main] is drawn without an exception and every
    pixel of the canvas handed to the encoder has alpha 255. *)
Theorem final_image_opaque :
  exists final,
    main_scene = (Ok tt, final) /\
    Z.of_nat (length final) = WIDTH * HEIGHT * 4 /\
    forall x y, in_canvas WIDTH HEIGHT x y = true ->
      exists R G B, pixel_at WIDTH final x y = Some (R, G, B, 255).
Proof.
  destruct gradient_opaque as (g & Eg & Hg).
  destruct (draw_arrow_opaque g Hg) as (final & Ef & [Hlen Hop]).
  exists final. split; [| split; assumption].
  unfold main_scene. now rewrite (bind_ok _ _ _ _ _ Eg).
Qed.

Lemma final_image_opaque_witness :
  exists final,
    main_scene = (Ok tt, final) /\
    exists R G B, pixel_at WIDTH final 319 190 = Some (R, G, B, 255).
Proof.
  destruct final_image_opaque as (final & E & _ & H).
  exists final. split; [exact E |]. apply H. reflexivity.
Defined.

(** ** CRC-32 and the packed fields *)

Lemma lxor_below n a b :
  0 < n -> 0 <= a < 2 ^ n -> 0 <= b < 2 ^ n -> 0 <= Z.lxor a b < 2 ^ n.
Proof.
  intros Hn Ha Hb.
  assert (H0 : 0 <= Z.lxor a b) by (apply Z.lxor_nonneg; split; intros; lia).
  split; [assumption |].
  destruct (Z.eq_dec (Z.lxor a b) 0) as [-> | Hne]; [apply Z.pow_pos_nonneg; lia |].
  apply Z.log2_lt_pow2; [lia |].
  pose proof (Z.log2_lxor a b ltac:(lia) ltac:(lia)) as Hl.
  assert (Z.log2 a < n).
  { destruct (Z.eq_dec a 0) as [-> | ?]; [cbn; lia | apply Z.log2_lt_pow2; lia]. }
  assert (Z.log2 b < n).
  { destruct (Z.eq_dec b 0) as [-> | ?]; [cbn; lia | apply Z.log2_lt_pow2; lia]. }
  lia.
Qed.

Lemma crc32_step_range c : 0 <= c < 2 ^ 32 -> 0 <= crc32_step c < 2 ^ 32.
Proof.
  intros Hc. unfold crc32_step.
  assert (0 <= Z.shiftr c 1 < 2 ^ 32).
  { rewrite Z.shiftr_div_pow2 by lia. change (2 ^ 1) with 2.
    split; [apply Z.div_pos; lia | apply Z.div_lt_upper_bound; lia]. }
  destruct (Z.odd c); [| assumption].
  apply lxor_below; [lia | assumption | lia].
Qed.

Lemma crc32_byte_range crc b : 0 <= crc < 2 ^ 32 -> 0 <= crc32_byte crc b < 2 ^ 32.
Proof.
  intros Hc. unfold crc32_byte.
  assert (H : 0 <= Z.lxor crc (Z_of_byte b) < 2 ^ 32).
  { pose proof (Z_of_byte_range b). apply lxor_below; lia. }
  cbn [Nat.iter]. now do 8 apply crc32_step_range.
Qed.

Lemma crc32_range data : 0 <= crc32 data < 2 ^ 32.
Proof.
  unfold crc32.
  assert (H : forall acc, 0 <= acc < 2 ^ 32 ->
                     0 <= fold_left crc32_byte data acc < 2 ^ 32).
  { induction data as [|b data IH]; intros acc Hacc; [assumption |].
    cbn [fold_left]. apply IH. now apply crc32_byte_range. }
  apply lxor_below; [lia | apply H; lia | lia].
Qed.

Lemma crc32_mask data : Z.land (crc32 data) 0xffffffff = crc32 data.
Proof.
  change 0xffffffff with (Z.ones 32).
  rewrite Z.land_ones by lia. apply Z.mod_small. apply crc32_range.
Qed.

Lemma pack_I_ok v : 0 <= v < 2 ^ 32 -> pack_I v = Ok (be32 v).
Proof.
  intros Hv. unfold pack_I.
  replace ((0 <=? v) && (v <? 2 ^ 32)) with true; [reflexivity |].
  symmetry. apply andb_true_iff. split; [apply Z.leb_le | apply Z.ltb_lt]; lia.
Qed.

Lemma chunk_ok chunk_type data :
  Z.of_nat (length data) < 2 ^ 32 ->
  chunk chunk_type data = Ok (chunk_layout chunk_type data).
Proof.
  intros Hlen. unfold chunk, chunk_layout.
  rewrite crc32_mask, (pack_I_ok (crc32 _)) by apply crc32_range.
  cbn [res_bind]. rewrite pack_I_ok by lia.
  cbn [res_bind]. now rewrite <- app_assoc.
Qed.

Lemma Z_of_byte_of_mod z : Z_of_byte (byte_of z) = z mod 256.
Proof.
  assert (H : 0 <= z mod 256 < 256) by (apply Z.mod_pos_bound; lia).
  rewrite <- (Z_of_byte_of (z mod 256) H).
  unfold byte_of. now rewrite Z.mod_mod by lia.
Qed.

Lemma be32_decode_be32 n : 0 <= n < 2 ^ 32 -> be32_decode (be32 n) = n.
Proof.
  intros Hn. unfold be32_decode, be32. cbn [fold_left].
  rewrite !Z_of_byte_of_mod, !Z.shiftr_div_pow2 by lia.
  change (2 ^ 24) with 16777216. change (2 ^ 16) with 65536.
  change (2 ^ 8) with 256. change (2 ^ 32) with 4294967296 in Hn.
  Z.div_mod_to_equations. lia.
Qed.

Lemma be32_length n : length (be32 n) = 4%nat.
Proof. reflexivity. Qed.

Lemma read_chunks_layout fuel chunk_type payload rest :
  length chunk_type = 4%nat ->
  Z.of_nat (length payload) < 2 ^ 32 ->
  read_chunks (S fuel) (chunk_layout chunk_type payload ++ rest) =
    option_map (cons (chunk_type, payload)) (read_chunks fuel rest).
Proof.
  intros Hty Hlen.
  set (n := length payload).
  set (crc := be32 (crc32 (chunk_type ++ payload))).
  assert (Edata : chunk_layout chunk_type payload ++ rest =
                  be32 (Z.of_nat n) ++ chunk_type ++ payload ++ crc ++ rest).
  { unfold chunk_layout. now rewrite <- !app_assoc. }
  rewrite Edata. clear Edata.
  assert (E4 : take 4 (be32 (Z.of_nat n) ++ chunk_type ++ payload ++ crc ++ rest)
               = be32 (Z.of_nat n)) by reflexivity.
  assert (D4 : drop 4 (be32 (Z.of_nat n) ++ chunk_type ++ payload ++ crc ++ rest)
               = chunk_type ++ payload ++ crc ++ rest) by reflexivity.
  assert (D8 : drop 8 (be32 (Z.of_nat n) ++ chunk_type ++ payload ++ crc ++ rest)
               = payload ++ crc ++ rest).
  { change 8%nat with (4 + 4)%nat. rewrite <- drop_drop, D4.
    now rewrite drop_app_length' by (symmetry; assumption). }
  assert (Elen : Z.to_nat (be32_decode (be32 (Z.of_nat n))) = n).
  { rewrite be32_decode_be32 by lia. lia. }
  assert (D8n : drop (8 + n) (be32 (Z.of_nat n) ++ chunk_type ++ payload ++ crc ++ rest)
                = crc ++ rest).
  { rewrite <- drop_drop, D8. now rewrite drop_app_length' by reflexivity. }
  assert (D12n : drop (12 + n) (be32 (Z.of_nat n) ++ chunk_type ++ payload ++ crc ++ rest)
                 = rest).
  { replace (12 + n)%nat with ((8 + n) + 4)%nat by lia.
    rewrite <- drop_drop, D8n. reflexivity. }
  assert (Hlen' : (12 + n <= length (be32 (Z.of_nat n) ++ chunk_type ++ payload ++ crc ++ rest))%nat).
  { rewrite !length_app, be32_length, Hty. unfold crc. rewrite be32_length. lia. }
  remember (be32 (Z.of_nat n) ++ chunk_type ++ payload ++ crc ++ rest) as data eqn:Hdata.
  destruct data as [|b0 data'].
  { cbn in Hlen'. lia. }
  cbn [read_chunks]. cbv zeta.
  rewrite E4, Elen, D4, D8, D8n, D12n.
  rewrite (take_app_length' chunk_type) by (symmetry; assumption).
  rewrite (take_app_length' payload) by reflexivity.
  replace (take 4 (crc ++ rest)) with crc by reflexivity.
  unfold crc at 1. rewrite be32_decode_be32 by apply crc32_range.
  rewrite Z.eqb_refl.
  replace (12 + n <=? length (b0 :: data'))%nat with true
    by (symmetry; apply Nat.leb_le; exact Hlen').
  reflexivity.
Qed.

(** ** The scanlines *)

Lemma for_acc_from_ext {S : Type} (f f' : Z -> S -> S) n : forall i s,
  (forall x s0, f x s0 = f' x s0) -> for_acc_from n i f s = for_acc_from n i f' s.
Proof.
  induction n as [|n IH]; intros i s H; [reflexivity |].
  cbn [for_acc_from]. rewrite H. now apply IH.
Qed.

Lemma for_acc_from_app (g : Z -> list byte) n : forall i s,
  for_acc_from n i (fun x raw => raw ++ g x) s =
    s ++ concat (map (fun k => g (i + Z.of_nat k)) (seq 0 n)).
Proof.
  induction n as [|n IH]; intros i s.
  - cbn. now rewrite app_nil_r.
  - cbn [for_acc_from]. rewrite IH.
    cbn [seq map concat]. rewrite <- seq_shift, map_map, Z.add_0_r, <- app_assoc.
    do 3 f_equal. apply map_ext. intros k. f_equal. lia.
Qed.

Lemma slice_inside (l : list byte) idx :
  0 <= idx -> idx + 4 <= Z.of_nat (length l) ->
  slice l idx (idx + 4) = take 4 (drop (Z.to_nat idx) l).
Proof.
  intros H0 H4. unfold slice, slice_bound.
  replace (idx <? 0) with false by (symmetry; apply Z.ltb_ge; lia).
  replace (idx + 4 <? 0) with false by (symmetry; apply Z.ltb_ge; lia).
  rewrite !Z.min_l by lia. f_equal. lia.
Qed.

Lemma concat_slices (l : list byte) base w :
  concat (map (fun k => take 4 (drop (base + 4 * k) l)) (seq 0 w)) =
    take (4 * w) (drop base l).
Proof.
  induction w as [|w IH].
  - cbn. now rewrite take_0.
  - rewrite seq_S, map_app, concat_app, IH. cbn [map concat Nat.add]. rewrite app_nil_r.
    rewrite <- (drop_drop l (4 * w) base), take_take_drop.
    f_equal. lia.
Qed.

Lemma raw_data_scanlines width height pixels :
  0 <= width -> 0 <= height ->
  Z.of_nat (length pixels) = width * height * 4 ->
  raw_data width height pixels = scanlines (Z.to_nat width) (Z.to_nat height) pixels.
Proof.
  intros Hw Hh Hlen. unfold raw_data, for_acc, scanlines.
  rewrite !Z.sub_0_r.
  set (h := Z.to_nat height). set (w := Z.to_nat width).
  change (@nil byte) with (@nil byte ++ []) at 1.
  assert (Hrow : forall y, (y < h)%nat ->
            forall raw,
              for_acc_from w 0
                (fun x raw0 =>
                   raw0 ++ slice pixels ((Z.of_nat y * width + x) * 4)
                                 ((Z.of_nat y * width + x) * 4 + 4))
                (raw ++ [x00]) = raw ++ x00 :: pixel_row w pixels y).
  { intros y Hy raw. rewrite for_acc_from_app.
    rewrite <- app_assoc. cbn [app]. do 2 f_equal.
    unfold pixel_row. rewrite <- concat_slices.
    f_equal. apply map_ext_in. intros k Hk. apply in_seq in Hk.
    rewrite slice_inside by nia. do 2 f_equal. nia. }
  assert (Hgen : forall n i raw, (i + n <= h)%nat ->
            for_acc_from n (Z.of_nat i)
              (fun y raw0 =>
                 for_acc_from w 0
                   (fun x raw1 =>
                      raw1 ++ slice pixels ((y * width + x) * 4) ((y * width + x) * 4 + 4))
                   (raw0 ++ [x00])) raw =
            raw ++ concat (map (fun y => x00 :: pixel_row w pixels y) (seq i n))).
  { induction n as [|n IH]; intros i raw Hi.
    - cbn. now rewrite app_nil_r.
    - cbn [for_acc_from]. rewrite Hrow by lia.
      replace (Z.of_nat i + 1) with (Z.of_nat (S i)) by lia.
      rewrite IH by lia. cbn [seq map concat]. now rewrite <- app_assoc. }
  rewrite app_nil_r. apply (Hgen h 0%nat []). lia.
Qed.

Lemma scanlines_length width height pixels :
  Z.of_nat (length pixels) = Z.of_nat width * Z.of_nat height * 4 ->
  length (scanlines width height pixels) = (height * (1 + 4 * width))%nat.
Proof.
  intros Hlen. unfold scanlines.
  assert (H : forall n i, (i + n <= height)%nat ->
            length (concat (map (fun y => x00 :: pixel_row width pixels y) (seq i n)))
            = (n * (1 + 4 * width))%nat).
  { induction n as [|n IH]; intros i Hi; [reflexivity |].
    cbn [seq map concat]. rewrite length_app, IH by lia.
    cbn [length]. unfold pixel_row. rewrite length_take_le; [lia |].
    rewrite length_drop. nia. }
  apply H. lia.
Qed.

Lemma scanlines_S width height pixels :
  scanlines width (S height) pixels =
    (x00 :: take (4 * width) pixels) ++ scanlines width height (drop (4 * width) pixels).
Proof.
  unfold scanlines. cbn [seq map concat].
  f_equal.
  - unfold pixel_row. now rewrite Nat.mul_0_r, drop_0.
  - rewrite <- seq_shift, map_map. f_equal. apply map_ext. intros y.
    unfold pixel_row. rewrite drop_drop. do 3 f_equal. lia.
Qed.

Lemma unfilter_scanlines width height : forall pixels,
  length pixels = (4 * width * height)%nat ->
  unfilter width height (scanlines width height pixels) = pixels.
Proof.
  induction height as [|h IH]; intros pixels Hlen.
  - cbn. destruct pixels; [reflexivity | cbn in Hlen; lia].
  - rewrite scanlines_S. cbn [unfilter].
    assert (Ht : length (take (4 * width) pixels) = (4 * width)%nat)
      by (apply length_take_le; nia).
    cbn [app drop Nat.add]. rewrite drop_0.
    rewrite take_app_length' by (symmetry; exact Ht).
    rewrite drop_app_length' by (symmetry; exact Ht).
    rewrite IH by (rewrite length_drop; nia).
    apply take_drop.
Qed.

(** ** The encoder *)

Lemma create_png_layout compress width height pixels :
  0 <= width < 2 ^ 32 -> 0 <= height < 2 ^ 32 ->
  Z.of_nat (length (compress (raw_data width height pixels))) < 2 ^ 32 ->
  create_png compress width height pixels =
    Ok (png_layout width height (compress (raw_data width height pixels))).
Proof.
  intros Hw Hh Hc. unfold create_png, pack_IIBBBBB.
  rewrite (pack_I_ok width Hw), (pack_I_ok height Hh).
  cbn [res_bind]. change (pack_B 8) with (@Ok (list byte) [x08]).
  change (pack_B 6) with (@Ok (list byte) [x06]).
  change (pack_B 0) with (@Ok (list byte) [x00]).
  cbn [res_bind].
  rewrite chunk_ok by (cbn; lia). cbn [res_bind].
  rewrite chunk_ok by assumption. cbn [res_bind].
  rewrite chunk_ok by (cbn; lia). cbn [res_bind].
  reflexivity.
Qed.

Lemma pack_I_inv v l : pack_I v = Ok l -> 0 <= v < 2 ^ 32.
Proof.
  unfold pack_I. destruct ((0 <=? v) && (v <? 2 ^ 32)) eqn:E; [| discriminate].
  intros _. apply andb_true_iff in E as [E0 E1].
  apply Z.leb_le in E0. apply Z.ltb_lt in E1. lia.
Qed.

Lemma chunk_inv chunk_type data l :
  chunk chunk_type data = Ok l -> Z.of_nat (length data) < 2 ^ 32.
Proof.
  intros H. unfold chunk in H. inv_res H.
  match goal with E : pack_I (Z.of_nat _) = Ok _ |- _ => now apply pack_I_inv in E end.
Qed.

(** [create_png] returns only when the fields fit. *)
Lemma create_png_returns compress width height pixels png :
  create_png compress width height pixels = Ok png ->
  0 <= width < 2 ^ 32 /\ 0 <= height < 2 ^ 32 /\
  Z.of_nat (length (compress (raw_data width height pixels))) < 2 ^ 32.
Proof.
  intros H. unfold create_png in H. inv_res H.
  match goal with E : pack_IIBBBBB _ _ _ _ _ _ _ = Ok _ |- _ =>
    unfold pack_IIBBBBB in E; inv_res E end.
  repeat match goal with E : pack_I _ = Ok _ |- _ => apply pack_I_inv in E end.
  match goal with E : chunk IDAT _ = Ok _ |- _ => apply chunk_inv in E end.
  auto.
Qed.

Lemma byte_list_eqb_refl l : byte_list_eqb l l = true.
Proof. unfold byte_list_eqb. now destruct (List.list_eq_dec Byte.byte_eq_dec l l). Qed.

Lemma png_chunks_layout width height payload :
  Z.of_nat (length payload) < 2 ^ 32 ->
  png_chunks (png_layout width height payload) =
    Some [(IHDR, be32 width ++ be32 height ++ [x08; x06; x00; x00; x00]);
          (IDAT, payload); (IEND, [])].
Proof.
  intros Hlen. unfold png_chunks, png_layout.
  rewrite take_app_length' by reflexivity. rewrite byte_list_eqb_refl.
  rewrite drop_app_length' by reflexivity.
  rewrite length_app.
  set (ihdr := be32 width ++ be32 height ++ [x08; x06; x00; x00; x00]).
  set (c1 := chunk_layout IHDR ihdr).
  assert (H1 : (4 <= length (c1 ++ chunk_layout IDAT payload ++ chunk_layout IEND []))%nat).
  { rewrite length_app. unfold c1, chunk_layout. rewrite length_app, be32_length. lia. }
  destruct (length png_signature +
            length (c1 ++ chunk_layout IDAT payload ++ chunk_layout IEND []))%nat
    as [|[|[|[|fuel]]]] eqn:E; try (cbn [length png_signature Nat.add] in E; lia).
  unfold c1. rewrite read_chunks_layout by (reflexivity || (cbn; lia)).
  rewrite read_chunks_layout by (reflexivity || assumption).
  rewrite <- (app_nil_r (chunk_layout IEND [])).
  rewrite read_chunks_layout by (reflexivity || (cbn; lia)).
  reflexivity.
Qed.

Lemma create_png_out_of_range compress width height pixels :
  ~ (0 <= width < 2 ^ 32 /\ 0 <= height < 2 ^ 32) ->
  create_png compress width height pixels = Raise StructError.
Proof.
  intros Hn. unfold create_png, pack_IIBBBBB, pack_I.
  destruct ((0 <=? width) && (width <? 2 ^ 32)) eqn:Ew; [| reflexivity].
  destruct ((0 <=? height) && (height <? 2 ^ 32)) eqn:Eh; [| reflexivity].
  exfalso. apply Hn.
  apply andb_true_iff in Ew as [Ew0 Ew1]. apply andb_true_iff in Eh as [Eh0 Eh1].
  apply Z.leb_le in Ew0, Eh0. apply Z.ltb_lt in Ew1, Eh1. lia.
Qed.

(** C1, as amended: for a width and a height that fit 32 unsigned bits
    and compressed scanlines shorter than 2^32 bytes, [create_png]
    returns the signature, the [IHDR] chunk (width, height, 8, 6, 0, 0,
    0), one [IDAT] chunk and the empty [IEND] chunk, each chunk laid out
    as length, type, payload, CRC-32; read back, the bytes hold exactly
    these three chunks.  For a width or a height that does not fit,
    [create_png] raises [struct.error]. *)
Theorem create_png_structure compress width height pixels :
  (0 <= width < 2 ^ 32 -> 0 <= height < 2 ^ 32 ->
   Z.of_nat (length (compress (raw_data width height pixels))) < 2 ^ 32 ->
   create_png compress width height pixels =
     Ok (png_signature ++
         chunk_layout IHDR (be32 width ++ be32 height ++ [x08; x06; x00; x00; x00]) ++
         chunk_layout IDAT (compress (raw_data width height pixels)) ++
         chunk_layout IEND []) /\
   png_chunks (png_layout width height (compress (raw_data width height pixels))) =
     Some [(IHDR, be32 width ++ be32 height ++ [x08; x06; x00; x00; x00]);
           (IDAT, compress (raw_data width height pixels)); (IEND, [])]) /\
  (~ (0 <= width < 2 ^ 32 /\ 0 <= height < 2 ^ 32) ->
   create_png compress width height pixels = Raise StructError).
Proof.
  split.
  - intros Hw Hh Hc. split.
    + now apply create_png_layout.
    + now apply png_chunks_layout.
  - apply create_png_out_of_range.
Qed.

Lemma create_png_structure_witness :
  create_png (fun d => d) 2 1 [x01; x02; x03; x04; x05; x06; x07; x08] =
    Ok (png_signature ++
        chunk_layout IHDR (be32 2 ++ be32 1 ++ [x08; x06; x00; x00; x00]) ++
        chunk_layout IDAT (raw_data 2 1 [x01; x02; x03; x04; x05; x06; x07; x08]) ++
        chunk_layout IEND []) /\
  png_chunks (png_layout 2 1 (raw_data 2 1 [x01; x02; x03; x04; x05; x06; x07; x08])) =
    Some [(IHDR, be32 2 ++ be32 1 ++ [x08; x06; x00; x00; x00]);
          (IDAT, raw_data 2 1 [x01; x02; x03; x04; x05; x06; x07; x08]); (IEND, [])].
Proof.
  apply (proj1 (create_png_structure (fun d => d) 2 1
                  [x01; x02; x03; x04; x05; x06; x07; x08]));
    [lia | lia | vm_compute; reflexivity].
Defined.

(** Width [2^32], height 0 and the empty buffer, of length
    [2^32 * 0 * 4]: nothing is returned. *)
Lemma create_png_width_counterexample :
  Z.of_nat (length (@nil byte)) = 2 ^ 32 * 0 * 4 /\
  forall compress, create_png compress (2 ^ 32) 0 [] = Raise StructError.
Proof. split; [reflexivity | intros compress; reflexivity]. Qed.

Section Roundtrip.

(** [zlib.compress(data, 9)] and [zlib.decompress]: decompression
    undoes compression. *)
Variable compress : list byte -> list byte.
Variable decompress : list byte -> option (list byte).
Hypothesis zlib_roundtrip : forall d, decompress (compress d) = Some d.

(** C2: whenever [create_png] returns, which it does when width,
    height and the length of the compressed data fit their 32-bit
    fields, the [IDAT] payload of the bytes returned decompresses to the
    scanlines, row after row from the top, each a filter byte 0 followed
    by the [4 * width] bytes of its row; taking the filter bytes away
    gives the pixel buffer back. *)
Theorem idat_decodes_to_pixels width height pixels :
  Z.of_nat (length pixels) = width * height * 4 ->
  (0 <= width < 2 ^ 32 -> 0 <= height < 2 ^ 32 ->
   Z.of_nat (length (compress (raw_data width height pixels))) < 2 ^ 32 ->
   exists png, create_png compress width height pixels = Ok png) /\
  (forall png,
     create_png compress width height pixels = Ok png ->
     exists ihdr idat,
       png_chunks png = Some [(IHDR, ihdr); (IDAT, idat); (IEND, [])] /\
       decompress idat =
         Some (concat (map (fun y => x00 :: pixel_row (Z.to_nat width) pixels y)
                         (seq 0 (Z.to_nat height)))) /\
       unfilter (Z.to_nat width) (Z.to_nat height)
         (concat (map (fun y => x00 :: pixel_row (Z.to_nat width) pixels y)
                    (seq 0 (Z.to_nat height)))) = pixels).
Proof.
  intros Hlen. split.
  - intros Hw Hh Hc. eexists. now apply create_png_layout.
  - intros png Hpng.
    destruct (create_png_returns _ _ _ _ _ Hpng) as (Hw & Hh & Hc).
    rewrite (create_png_layout compress width height pixels Hw Hh Hc) in Hpng.
    injection Hpng as <-.
    exists (be32 width ++ be32 height ++ [x08; x06; x00; x00; x00]).
    exists (compress (raw_data width height pixels)).
    split; [now apply png_chunks_layout |].
    split.
    + rewrite zlib_roundtrip. f_equal. apply raw_data_scanlines; lia.
    + apply unfilter_scanlines. nia.
Qed.

End Roundtrip.

Lemma idat_decodes_to_pixels_witness :
  exists ihdr idat,
    png_chunks (png_layout 2 1 (raw_data 2 1 [x01; x02; x03; x04; x05; x06; x07; x08]))
      = Some [(IHDR, ihdr); (IDAT, idat); (IEND, [])] /\
    Some idat =
      Some (concat (map (fun y => x00 :: pixel_row (Z.to_nat 2)
                                          [x01; x02; x03; x04; x05; x06; x07; x08] y)
                      (seq 0 (Z.to_nat 1)))) /\
    unfilter (Z.to_nat 2) (Z.to_nat 1)
      (concat (map (fun y => x00 :: pixel_row (Z.to_nat 2)
                                  [x01; x02; x03; x04; x05; x06; x07; x08] y)
                 (seq 0 (Z.to_nat 1)))) = [x01; x02; x03; x04; x05; x06; x07; x08].
Proof.
  apply (proj2 (idat_decodes_to_pixels (fun d => d) Some (fun d => eq_refl) 2 1
                  [x01; x02; x03; x04; x05; x06; x07; x08] eq_refl)).
  vm_compute. reflexivity.
Defined.



(** ** Exact results of rounding *)








(** ** The anti-aliased band of the circle *)











(** The same circle with nominal alpha 200: nothing at distance 5.5,
    alpha 100 at distance 4.5, alpha 200 at distance 3.5. *)
Example circle_on_a_row :
  exists s',
    draw_filled_circle 12 1 (Py.PFloat (S754_finite false 6192449487634432 (-50)))
      (Py.PInt 0) (Py.PInt 5) 200 210 230 200 (bytearray_zeros 48) = (Ok tt, s') /\
    pixel_at 12 s' 0 0 = Some (0, 0, 0, 0) /\
    pixel_at 12 s' 1 0 = Some (200, 210, 230, 100) /\
    pixel_at 12 s' 2 0 = Some (200, 210, 230, 200).
Proof.
  eexists. split; [vm_compute; reflexivity |].
  repeat split; vm_compute; reflexivity.
Qed.

(** ** Known answers *)

Example crc32_IEND : crc32 IEND = 0xAE426082.
Proof. reflexivity. Qed.

Example crc32_check_value :
  crc32 ["1"; "2"; "3"; "4"; "5"; "6"; "7"; "8"; "9"]%byte = 0xCBF43926.
Proof. reflexivity. Qed.

Example iend_chunk :
  chunk IEND [] = Ok [x00; x00; x00; x00; x49; x45; x4e; x44; xae; x42; x60; x82].
Proof. reflexivity. Qed.

Example literal_0_6 : Py.int_truediv 6 10 = Ok Py.f0_6.
Proof. reflexivity. Qed.

Example literal_0_5 : Py.int_truediv 1 2 = Ok f0_5.
Proof. reflexivity. Qed.

(** [200 / 255.0] is [0x1.9191919191919p-1]. *)
Example alpha_200 :
  Py.truediv (Py.PInt 200) (Py.PFloat Py.f255)
    = Ok (Py.PFloat (S754_finite false 0x19191919191919 (-53))).
Proof. reflexivity. Qed.

Example half_thickness :
  Py.truediv (Py.PInt 8) (Py.PInt 2) = Ok (Py.PFloat (S754_finite false (2 ^ 52) (-50))).
Proof. reflexivity. Qed.

Example gradient_last_row :
  res_bind (Py.truediv (Py.PInt 399) (Py.PInt HEIGHT)) (gradient_channel 42) = Ok 47.
Proof. reflexivity. Qed.

(** The first stroke of the arrow, from [319 - 28 * 0.6] =
    [0x1.2e33333333333p+8] at row 162 to [319 + 28 * 0.6] =
    [0x1.4fccccccccccdp+8] at row 190: the edge alphas of a few pixels
    across it. *)
Example first_stroke_ends :
  res_bind (Py.mul (Py.PInt 28) (Py.PFloat Py.f0_6)) (fun indent =>
    res_bind (Py.sub (Py.PInt 319) indent) (fun top_x =>
      res_bind (Py.add (Py.PInt 319) indent) (fun mid_x => Ok (top_x, mid_x))))
  = Ok (Py.PFloat (S754_finite false 0x12e33333333333 (-44)),
        Py.PFloat (S754_finite false 0x14fccccccccccd (-44))).
Proof. reflexivity. Qed.

Example first_stroke_alphas :
  match line_setup WIDTH HEIGHT
          (Py.PFloat (S754_finite false 0x12e33333333333 (-44))) (Py.PInt 162)
          (Py.PFloat (S754_finite false 0x14fccccccccccd (-44))) (Py.PInt 190)
          (Py.PInt 8) with
  | Ok (Some bx) =>
      map (fun p =>
             line_edge_alpha (Py.PFloat (S754_finite false 0x12e33333333333 (-44)))
               (Py.PInt 162) (box_dx bx) (box_dy bx) (box_length bx) (Py.PInt 8) 200
               (fst p) (snd p))
        [(302, 162); (318, 180); (323, 175); (324, 175); (330, 170)]
  | _ => []
  end = [Ok (Some 200); Ok (Some 57); Ok (Some 134); Ok (Some 6); Ok None].
Proof. vm_compute. reflexivity. Qed.
